(** * InteractiveQuizSystem: the session orchestrator, its states and data leaves

    A shallow embedding of [models/] and [state/] of the quiz system:
    questions, quizzes and players as records, the four lifecycle states as
    an enumeration with their methods written by case, and the methods of
    [GameSession] as computations in a small state monad that also records
    the calls made on state objects and on the broadcast callback.

    Python values are modelled as follows: [int] is [Z], [str] is [string],
    [dict[str, Player]] is [gmap string Player], [set[str]] is [gset string],
    [X | None] is [option X], a [datetime] is a [Z] timestamp, and a raised
    exception is the [Raise] outcome of [Result].

    The mappers of [repository/mappers] and the database singleton of
    [repository/mongo_database.py] follow, over untyped document values
    ([PyVal]); what they take from the interpreter and from [bson] is a
    parameter ([Builtins]). *)

From Stdlib Require Import ZArith Lia.
From stdpp Require Import base option list strings gmap pretty.

Local Open Scope string_scope.
Local Open Scope list_scope.
Local Open Scope Z_scope.

(** ** Exceptions *)

Inductive Exn : Type :=
| ValueError (msg : string).

Inductive Result (A : Type) : Type :=
| Ok (a : A)
| Raise (e : Exn).
Arguments Ok {A} a.
Arguments Raise {A} e.

Definition is_Ok {A} (r : Result A) : bool :=
  match r with Ok _ => true | Raise _ => false end.

(** [x or default] on an optional datetime (a datetime is always truthy). *)
Definition or_now (x : option Z) (now : Z) : Z := default now x.

(** ** models/base_question.py, choice_question.py, true_false_question.py *)

Record BaseFields : Type := mkBase {
  question_id : option string;
  text : string;
  time_limit_seconds : Z
}.

(** [BaseQuestion.__init__] *)
Definition BaseQuestion_init (text : string) (time_limit_seconds : Z)
    (question_id : option string) : BaseFields :=
  mkBase question_id text time_limit_seconds.

Inductive BaseQuestion : Type :=
| ChoiceQuestion (base : BaseFields) (options : list string) (correct_index : Z)
| TrueFalseQuestion (base : BaseFields) (correct_answer : bool).

Definition len {A} (l : list A) : Z := Z.of_nat (length l).

(** [ChoiceQuestion.__init__]: the two guards raise before any field of the
    subclass is assigned. *)
Definition ChoiceQuestion_init (text : string) (options : list string)
    (correct_index : Z) (time_limit_seconds : Z) (question_id : option string)
    : Result BaseQuestion :=
  let base := BaseQuestion_init text time_limit_seconds question_id in
  if bool_decide (options = []) then
    Raise (ValueError "ChoiceQuestion must have at least one option.")
  else if (correct_index <? 0) || (correct_index >=? len options) then
    Raise (ValueError ("correct_index " +:+ pretty correct_index +:+
                       " must be in range [0, " +:+ pretty (len options) +:+ ")"))
  else Ok (ChoiceQuestion base options correct_index).

(** [TrueFalseQuestion.__init__] *)
Definition TrueFalseQuestion_init (text : string) (correct_answer : bool)
    (time_limit_seconds : Z) (question_id : option string) : BaseQuestion :=
  TrueFalseQuestion (BaseQuestion_init text time_limit_seconds question_id)
                    correct_answer.

(** ** models/quiz.py *)

Record Quiz : Type := mkQuiz {
  quiz_id : option string;
  title : string;
  description : string;
  questions : list BaseQuestion;
  quiz_created_at : Z
}.

(** [Quiz.__init__]; [now] is the value of [datetime.utcnow()]. *)
Definition Quiz_init (now : Z) (title : string) (questions : list BaseQuestion)
    (quiz_id : option string) (description : string) (created_at : option Z)
    : Result Quiz :=
  if bool_decide (questions = []) then
    Raise (ValueError "Quiz must have at least one question.")
  else Ok (mkQuiz quiz_id title description questions (or_now created_at now)).

Definition question_count (q : Quiz) : Z := len (questions q).

(** [Quiz.get_question_at] *)
Definition get_question_at (q : Quiz) (index : Z) : option BaseQuestion :=
  if (0 <=? index) && (index <? len (questions q))
  then questions q !! Z.to_nat index
  else None.

(** ** models/player.py *)

Record Player : Type := mkPlayer {
  connection_id : string;
  nickname : string;
  score : Z;
  joined_at : Z
}.

(** [Player.__init__] *)
Definition Player_init (now : Z) (connection_id nickname : string) (score : Z)
    (joined_at : option Z) : Player :=
  mkPlayer connection_id nickname score (or_now joined_at now).

(** A method of [Player] returns its outcome and the object after the call. *)
Definition with_score (p : Player) (v : Z) : Player :=
  mkPlayer (connection_id p) (nickname p) v (joined_at p).

(** [Player.score] setter *)
Definition Player_set_score (p : Player) (value : Z) : Result unit * Player :=
  if value <? 0 then (Raise (ValueError "Score cannot be negative."), p)
  else (Ok tt, with_score p value).

(** [Player.add_score] *)
Definition Player_add_score (p : Player) (points : Z) : Result unit * Player :=
  (Ok tt, with_score p (score p + points)).

(** ** state/game_state.py and its four concrete states

    The state classes hold no data, so an instance is its class. *)

Inductive GameState : Type :=
| LobbyState
| QuestionState
| LeaderboardState
| FinishedState.

Global Instance GameState_eq_dec : EqDecision GameState.
Proof. solve_decision. Defined.

(** [state_name] property *)
Definition state_name (g : GameState) : string :=
  match g with
  | LobbyState => "lobby"
  | QuestionState => "question"
  | LeaderboardState => "leaderboard"
  | FinishedState => "finished"
  end.

(** ** models/game_session.py *)

(** The broadcast callback is code outside the session (the connection
    manager); it is known here by a reference only, and calling it is an
    event of the trace. *)
Inductive Callback : Type :=
| callback_ref (id : nat).

Global Instance Callback_eq_dec : EqDecision Callback.
Proof. solve_decision. Defined.

Record GameSession : Type := mkSession {
  session_id : option string;
  pin : string;
  quiz : Quiz;
  players : gmap string Player;
  current_question_index : Z;
  created_at : Z;
  state : option GameState;
  broadcast_callback : option Callback;
  current_question_answered : gset string
}.

(** [GameSession.__init__] *)
Definition GameSession_init (now : Z) (pin : string) (quiz : Quiz)
    (session_id : option string) (created_at : option Z)
    (initial_state : option GameState) : GameSession :=
  mkSession session_id pin quiz ∅ 0 (or_now created_at now)
            (Some (default LobbyState initial_state)) None ∅.

(** Assignments to single attributes of [self]. *)
Definition set_players (m : gmap string Player) (s : GameSession) : GameSession :=
  mkSession (session_id s) (pin s) (quiz s) m (current_question_index s)
            (created_at s) (state s) (broadcast_callback s)
            (current_question_answered s).

Definition set_current_question_index (i : Z) (s : GameSession) : GameSession :=
  mkSession (session_id s) (pin s) (quiz s) (players s) i
            (created_at s) (state s) (broadcast_callback s)
            (current_question_answered s).

Definition set_state (g : option GameState) (s : GameSession) : GameSession :=
  mkSession (session_id s) (pin s) (quiz s) (players s) (current_question_index s)
            (created_at s) g (broadcast_callback s)
            (current_question_answered s).

Definition set_callback (c : option Callback) (s : GameSession) : GameSession :=
  mkSession (session_id s) (pin s) (quiz s) (players s) (current_question_index s)
            (created_at s) (state s) c
            (current_question_answered s).

Definition set_answered (a : gset string) (s : GameSession) : GameSession :=
  mkSession (session_id s) (pin s) (quiz s) (players s) (current_question_index s)
            (created_at s) (state s) (broadcast_callback s) a.

(** *** The monad of session methods

    A method takes the session, returns a value and the session after the
    call, and appends to the trace the calls it made on state objects and on
    the callback. *)

Inductive Event : Type :=
| EvOnLeave (g : GameState)      (* [g.on_leave(session)] is called *)
| EvSetState (g : GameState)     (* [session._state = g] in [transition_to] *)
| EvOnEnter (g : GameState)      (* [g.on_enter(session)] is called *)
| EvBroadcast (cb : Callback).   (* [session._broadcast_callback()] is called *)

Global Instance Event_eq_dec : EqDecision Event.
Proof. solve_decision. Defined.

Definition M (A : Type) : Type := GameSession → A * GameSession * list Event.

Definition ret {A} (a : A) : M A := λ s, (a, s, []).

Definition bind {A B} (m : M A) (k : A → M B) : M B :=
  λ s, let r1 := m s in
       let r2 := k (r1.1.1) (r1.1.2) in
       (r2.1.1, r2.1.2, r1.2 ++ r2.2).

Definition gets {A} (f : GameSession → A) : M A := λ s, (f s, s, []).
Definition modify (f : GameSession → GameSession) : M unit := λ s, (tt, f s, []).
Definition emit (e : Event) : M unit := λ s, (tt, s, [e]).

Declare Scope session_scope.
Delimit Scope session_scope with session.
Notation "x <- m ;; k" := (bind m (λ x, k))
  (at level 100, m at next level, right associativity) : session_scope.
Notation "m ;; k" := (bind m (λ _, k))
  (at level 100, right associativity) : session_scope.
Local Open Scope session_scope.

(** Value, final session and trace of a computation. *)
Definition value_of {A} (r : A * GameSession * list Event) : A := r.1.1.
Definition session_of {A} (r : A * GameSession * list Event) : GameSession := r.1.2.
Definition trace_of {A} (r : A * GameSession * list Event) : list Event := r.2.

(** *** Methods of [GameSession] *)

Definition add_player (player : Player) : M unit :=
  modify (λ s, set_players (<[connection_id player := player]> (players s)) s).

(** [self._players.pop(connection_id, None)] *)
Definition remove_player (connection_id : string) : M (option Player) :=
  p <- gets (λ s, players s !! connection_id) ;;
  modify (λ s, set_players (delete connection_id (players s)) s) ;;
  ret p.

Definition get_player (connection_id : string) : M (option Player) :=
  gets (λ s, players s !! connection_id).

Definition set_broadcast_callback (callback : option Callback) : M unit :=
  modify (set_callback callback).

Definition clear_current_question_answers : M unit :=
  modify (set_answered ∅).

Definition has_answered_current_question (connection_id : string) : M bool :=
  gets (λ s, bool_decide (connection_id ∈ current_question_answered s)).

Definition record_answer (connection_id : string) : M bool :=
  seen <- gets (λ s, bool_decide (connection_id ∈ current_question_answered s)) ;;
  if seen then ret false
  else
    modify (λ s, set_answered (current_question_answered s ∪ {[connection_id]}) s) ;;
    ret true.

Definition get_current_question : M (option BaseQuestion) :=
  gets (λ s, get_question_at (quiz s) (current_question_index s)).

Definition has_next_question : M bool :=
  gets (λ s, current_question_index s + 1 <? question_count (quiz s)).

Definition advance_to_next_question : M bool :=
  more <- has_next_question ;;
  if negb more then ret false
  else
    modify (λ s, set_current_question_index (current_question_index s + 1) s) ;;
    ret true.

(** *** Methods of the state classes (dispatch on the class) *)

(** [on_enter]: only [QuestionState] overrides the empty default. *)
Definition on_enter (g : GameState) : M unit :=
  emit (EvOnEnter g) ;;
  match g with
  | QuestionState => clear_current_question_answers
  | _ => ret tt
  end.

(** [on_leave]: never overridden. *)
Definition on_leave (g : GameState) : M unit :=
  emit (EvOnLeave g) ;;
  ret tt.

Definition can_start_question (g : GameState) : M bool :=
  match g with
  | LobbyState => ret true
  | _ => ret false
  end.

Definition can_show_leaderboard (g : GameState) : M bool :=
  match g with
  | QuestionState => ret true
  | _ => ret false
  end.

Definition can_go_next (g : GameState) : M bool :=
  match g with
  | QuestionState => ret true
  | LeaderboardState => ret true
  | FinishedState => ret false
  | LobbyState => ret false
  end.

Definition get_next_state (g : GameState) : M (option GameState) :=
  match g with
  | LobbyState =>
      n <- gets (λ s, question_count (quiz s)) ;;
      if n =? 0 then ret None else ret (Some QuestionState)
  | QuestionState => ret (Some LeaderboardState)
  | LeaderboardState =>
      more <- has_next_question ;;
      if more then
        advance_to_next_question ;;
        ret (Some QuestionState)
      else ret (Some FinishedState)
  | FinishedState => ret None
  end.

(** *** The transition protocol *)

Definition transition_to (new_state : GameState) : M unit :=
  old <- gets state ;;
  match old with Some g => on_leave g | None => ret tt end ;;
  emit (EvSetState new_state) ;;
  modify (set_state (Some new_state)) ;;
  cur <- gets state ;;
  match cur with Some g => on_enter g | None => ret tt end ;;
  cb <- gets broadcast_callback ;;
  match cb with Some f => emit (EvBroadcast f) | None => ret tt end.

Definition trigger_next : M bool :=
  st <- gets state ;;
  match st with
  | None => ret false
  | Some g =>
      ok <- can_go_next g ;;
      if negb ok then ret false
      else
        next_state <- get_next_state g ;;
        match next_state with
        | None => ret false
        | Some n => transition_to n ;; ret true
        end
  end.

Definition trigger_start_question : M bool :=
  st <- gets state ;;
  match st with
  | None => ret false
  | Some g =>
      ok <- can_start_question g ;;
      if negb ok then ret false
      else
        next_state <- get_next_state g ;;
        match next_state with
        | None => ret false
        | Some n => transition_to n ;; ret true
        end
  end.

(** *** Public operations and their sequencing *)

Inductive Op : Type :=
| OpAddPlayer (p : Player)
| OpRemovePlayer (c : string)
| OpRecordAnswer (c : string)
| OpSetBroadcastCallback (cb : option Callback)
| OpTriggerStartQuestion
| OpTriggerNext.

Definition perform (op : Op) : M unit :=
  match op with
  | OpAddPlayer p => add_player p
  | OpRemovePlayer c => remove_player c ;; ret tt
  | OpRecordAnswer c => record_answer c ;; ret tt
  | OpSetBroadcastCallback cb => set_broadcast_callback cb
  | OpTriggerStartQuestion => trigger_start_question ;; ret tt
  | OpTriggerNext => trigger_next ;; ret tt
  end.

Fixpoint run (ops : list Op) : M unit :=
  match ops with
  | [] => ret tt
  | op :: rest => perform op ;; run rest
  end.

(** The states a trace assigns to [session._state], in order. *)
Definition entered (tr : list Event) : list GameState :=
  omap (λ e, match e with EvSetState g => Some g | _ => None end) tr.

(** The callback invocations of a trace, in order. *)
Definition broadcasts (tr : list Event) : list Callback :=
  omap (λ e, match e with EvBroadcast cb => Some cb | _ => None end) tr.

(** The state names a session shows while [ops] run on it: the name of its
    state at the start, then the name of each state it is moved to. *)
Definition observed (s0 : GameSession) (ops : list Op) : list string :=
  state_name <$> (option_list (state s0) ++ entered (trace_of (run ops s0))).

(** (leaderboard, question)^k *)
Definition rounds (k : nat) : list GameState :=
  mjoin (replicate k [LeaderboardState; QuestionState]).

(** lobby, question, (leaderboard, question)^n, leaderboard, finished *)
Definition lifecycle_states (n : nat) : list GameState :=
  [LobbyState; QuestionState] ++ rounds n ++ [LeaderboardState; FinishedState].

Definition lifecycle (n : nat) : list string := state_name <$> lifecycle_states n.

(** The arrows of the lifecycle. *)
Definition edge (a b : GameState) : bool :=
  match a, b with
  | LobbyState, QuestionState
  | QuestionState, LeaderboardState
  | LeaderboardState, QuestionState
  | LeaderboardState, FinishedState => true
  | _, _ => false
  end.

(** A session as the application creates it: a quiz accepted by
    [Quiz.__init__], then [GameSession(pin, quiz, ...)] with the default
    initial state. *)
Definition fresh_session (s : GameSession) : Prop :=
  ∃ now pin q sid created,
    questions q ≠ [] ∧ s = GameSession_init now pin q sid created None.

(** State and cursor before the first operation and after each one. *)
Fixpoint snapshots (ops : list Op) (s : GameSession)
    : list (option GameState * Z) :=
  (state s, current_question_index s) ::
  match ops with
  | [] => []
  | op :: rest => snapshots rest (session_of (perform op s))
  end.

(** What the callback contributes to the trace of a transition. *)
Definition notify (s : GameSession) : list Event :=
  match broadcast_callback s with
  | Some f => [EvBroadcast f]
  | None => []
  end.

(** The trace of the transition protocol from [old] to [new]. *)
Definition protocol (old new : GameState) (s : GameSession) : list Event :=
  [EvOnLeave old; EvSetState new; EvOnEnter new] ++ notify s.

(** The session after [new] is assigned and its [on_enter] has run. *)
Definition after_enter (new : GameState) (s : GameSession) : GameSession :=
  match new with
  | QuestionState => set_answered ∅ (set_state (Some new) s)
  | _ => set_state (Some new) s
  end.

(** The invariant that ties the state and the cursor of a session on quiz
    [q] to the list [hist] of the states it has been in. *)
Definition history_inv (q : Quiz) (s : GameSession) (hist : list GameState) : Prop :=
  quiz s = q ∧
  0 ≤ current_question_index s < question_count q ∧
  let k := Z.to_nat (current_question_index s) in
  match state s with
  | Some LobbyState => hist = [LobbyState] ∧ current_question_index s = 0
  | Some QuestionState => hist = [LobbyState; QuestionState] ++ rounds k
  | Some LeaderboardState =>
      hist = [LobbyState; QuestionState] ++ rounds k ++ [LeaderboardState]
  | Some FinishedState =>
      hist = [LobbyState; QuestionState] ++ rounds k
               ++ [LeaderboardState; FinishedState]
      ∧ current_question_index s + 1 = question_count q
  | None => False
  end.

(** Callers that answer only for current players and remove only players
    that have not answered the current question. *)
Definition admissible (op : Op) (s : GameSession) : Prop :=
  match op with
  | OpRecordAnswer c => c ∈ dom (players s)
  | OpRemovePlayer c => c ∉ current_question_answered s
  | _ => True
  end.

Fixpoint disciplined (ops : list Op) (s : GameSession) : Prop :=
  match ops with
  | [] => True
  | op :: rest => admissible op s ∧ disciplined rest (session_of (perform op s))
  end.

(** The answered-set is within the keys of the player map. *)
Definition answered_are_players (s : GameSession) : Prop :=
  current_question_answered s ⊆ dom (players s).

(** The shape of what a single public operation does to a session. *)
Inductive op_effect (s : GameSession) : GameSession → list Event → Prop :=
| eff_none : op_effect s s []
| eff_players m : op_effect s (set_players m s) []
| eff_callback cb : op_effect s (set_callback cb s) []
| eff_answer c :
    c ∉ current_question_answered s →
    op_effect s (set_answered (current_question_answered s ∪ {[c]}) s) []
| eff_start :
    state s = Some LobbyState →
    question_count (quiz s) ≠ 0 →
    op_effect s (after_enter QuestionState s) (protocol LobbyState QuestionState s)
| eff_show :
    state s = Some QuestionState →
    op_effect s (after_enter LeaderboardState s)
              (protocol QuestionState LeaderboardState s)
| eff_again :
    state s = Some LeaderboardState →
    current_question_index s + 1 < question_count (quiz s) →
    op_effect s
      (after_enter QuestionState
         (set_current_question_index (current_question_index s + 1) s))
      (protocol LeaderboardState QuestionState s)
| eff_finish :
    state s = Some LeaderboardState →
    ¬ current_question_index s + 1 < question_count (quiz s) →
    op_effect s (after_enter FinishedState s)
              (protocol LeaderboardState FinishedState s).

(** *** Sample data *)

Definition sample_question (n : Z) : BaseQuestion :=
  TrueFalseQuestion_init "Is it so?" true n None.

Definition sample_quiz1 : Quiz :=
  mkQuiz None "one" EmptyString [sample_question 10] 0.

Definition sample_quiz3 : Quiz :=
  mkQuiz None "three" EmptyString
         [sample_question 10; sample_question 20; sample_question 30] 0.

Definition sample_session1 : GameSession :=
  GameSession_init 0 "4711" sample_quiz1 None None None.

Definition sample_session3 : GameSession :=
  GameSession_init 0 "4712" sample_quiz3 None None None.

Definition sample_player : Player := Player_init 0 "conn-1" "ann" 0 None.

(** The two host commands. *)
Definition host_command (trigger : M bool) : Prop :=
  trigger = trigger_next ∨ trigger = trigger_start_question.

(** The host's commands for a whole game on a quiz of one question, and on a
    quiz of three. *)
Definition host_script1 : list Op :=
  [OpTriggerStartQuestion; OpTriggerNext; OpTriggerNext].

Definition host_script3 : list Op :=
  [OpTriggerStartQuestion; OpTriggerNext; OpTriggerNext; OpTriggerNext;
   OpTriggerNext; OpTriggerNext; OpTriggerNext].

(** The reading of [get_current_question] under which it is absent exactly
    before the first move into the Question state and once Finished. *)
Definition absent_outside_play (s0 : GameSession) (ops : list Op) : Prop :=
  let r := run ops s0 in
  value_of (get_current_question (session_of r)) = None
  ↔ (QuestionState ∉ entered (trace_of r)
     ∨ state (session_of r) = Some FinishedState).

(** *** Further scenarios *)

(** The host's commands for a whole game on [n] questions: one start, then
    two steps per question. *)
Definition host_script (n : nat) : list Op :=
  OpTriggerStartQuestion :: replicate (2 * n) OpTriggerNext.

(** [record_answer] for each identity of a list in turn, with the results. *)
Fixpoint record_all (cs : list string) : M (list bool) :=
  match cs with
  | [] => ret []
  | c :: rest =>
      b <- record_answer c ;;
      bs <- record_all rest ;;
      ret (b :: bs)
  end.

(** [advance_to_next_question] called [k] times, with the results. *)
Fixpoint advance_times (k : nat) : M (list bool) :=
  match k with
  | O => ret []
  | S k' =>
      b <- advance_to_next_question ;;
      bs <- advance_times k' ;;
      ret (b :: bs)
  end.

Definition is_player_op (op : Op) : bool :=
  match op with
  | OpAddPlayer _ | OpRemovePlayer _ => true
  | _ => false
  end.

Definition is_callback_op (op : Op) : bool :=
  match op with
  | OpSetBroadcastCallback _ => true
  | _ => false
  end.

Definition is_host_op (op : Op) : bool :=
  match op with
  | OpTriggerStartQuestion | OpTriggerNext => true
  | _ => false
  end.

(** How many times a trace moves the session into the Question state. *)
Definition questions_started (tr : list Event) : nat :=
  length (filter (λ g, g = QuestionState) (entered tr)).





(** ** Values of type [Any]

    Answers sent by players and the fields of stored documents are untyped.
    [PyVal] holds the values a decoded document is made of: [None], [bool],
    [int], [str], [list], [dict] with string keys, [datetime] and
    [ObjectId] (by its hexadecimal string).  Floats and binary data are
    left out. *)
#[warnings="-register-all"] Inductive PyVal : Type :=
| PyNone
| PyBool (b : bool)
| PyInt (z : Z)
| PyStr (s : string)
| PyList (l : list PyVal)
| PyDict (d : gmap string PyVal)
| PyDatetime (t : Z)
| PyObjectId (hex : string).

(** The truth value of an object, as [or], [not] and [bool()] use it. *)
Definition truthy (v : PyVal) : bool :=
  match v with
  | PyNone => false
  | PyBool b => b
  | PyInt z => negb (z =? 0)
  | PyStr s => negb (bool_decide (s = EmptyString))
  | PyList l => negb (bool_decide (l = []))
  | PyDict d => negb (bool_decide (dom d = ∅))
  | PyDatetime _ => true
  | PyObjectId _ => true
  end.

(** [a or b] *)
Definition py_or (a b : PyVal) : PyVal := if truthy a then a else b.

(** [v == s] for a string literal [s] *)
Definition eq_str (v : PyVal) (s : string) : bool :=
  match v with
  | PyStr s' => bool_decide (s' = s)
  | _ => false
  end.

(** [v == n] for an integer literal [n]; [True == 1] and [False == 0]. *)
Definition eq_int (v : PyVal) (n : Z) : bool :=
  match v with
  | PyInt z => z =? n
  | PyBool b => (if b then 1 else 0) =? n
  | _ => false
  end.

(** ** [validate_answer] of the two question classes *)

(** [ChoiceQuestion.validate_answer]: [isinstance(answer, int)] also holds
    for a [bool], which then compares as 0 or 1. *)
Definition ChoiceQuestion_validate_answer (correct_index : Z) (answer : PyVal)
    : bool :=
  match answer with
  | PyInt _ | PyBool _ => eq_int answer correct_index
  | _ => false
  end.

(** [TrueFalseQuestion.validate_answer] *)
Definition TrueFalseQuestion_validate_answer (correct_answer : bool)
    (answer : PyVal) : bool :=
  match answer with
  | PyBool b => bool_decide (b = correct_answer)
  | _ => false
  end.

(** [validate_answer], dispatched on the class of the question. *)
Definition validate_answer (q : BaseQuestion) (answer : PyVal) : bool :=
  match q with
  | ChoiceQuestion _ _ correct_index =>
      ChoiceQuestion_validate_answer correct_index answer
  | TrueFalseQuestion _ correct_answer =>
      TrueFalseQuestion_validate_answer correct_answer answer
  end.

(** The invariant [ChoiceQuestion.__init__] establishes. *)
Definition valid_question (q : BaseQuestion) : Prop :=
  match q with
  | ChoiceQuestion _ options correct_index =>
      options ≠ [] ∧ 0 ≤ correct_index < len options
  | TrueFalseQuestion _ _ => True
  end.

(** ** repository/mappers

    What the mappers take from the interpreter and from the [bson] library
    is a parameter of the model. *)
Inductive OidOutcome : Type :=
| OidMade (hex : string)   (* an ObjectId; [str] of it is [hex] *)
| OidCaught                (* raises [TypeError] or [ValueError] *)
| OidEscapes.              (* raises an exception of another class *)

Record Builtins : Type := mkBuiltins {
  (** [int(s)] for a string: the number, or nothing where it raises
      [ValueError] *)
  int_of_str : string → option Z;
  (** [str(v)] for a list, a dict or a datetime *)
  str_other : PyVal → string;
  (** [repr(v)], used in an error message *)
  repr : PyVal → string;
  (** [datetime.fromisoformat(s)], or nothing where it raises [ValueError] *)
  fromisoformat : string → option Z;
  (** [ObjectId(s)] of the [bson] library *)
  ObjectId_new : string → OidOutcome
}.

(** Exceptions on the way through a mapper: those of the model classes, and
    those of [int()] and of iteration, whose messages are the interpreter's. *)
Inductive MapExn : Type :=
| FromModel (e : Exn)
| BuiltinValueError
| BuiltinTypeError
| LibraryError.

Inductive Outcome (A : Type) : Type :=
| Returned (a : A)
| Raised (e : MapExn).
Arguments Returned {A} a.
Arguments Raised {A} e.

Definition has_returned {A} (o : Outcome A) : bool :=
  match o with Returned _ => true | Raised _ => false end.

(** Sequencing of calls that may raise. *)
Definition and_then {A B} (o : Outcome A) (k : A → Outcome B) : Outcome B :=
  match o with
  | Returned a => k a
  | Raised e => Raised e
  end.

(** A call into a model class. *)
Definition of_result {A} (r : Result A) : Outcome A :=
  match r with
  | Ok a => Returned a
  | Raise e => Raised (FromModel e)
  end.

(** [int(v)] *)
Definition py_int (B : Builtins) (v : PyVal) : Outcome Z :=
  match v with
  | PyInt z => Returned z
  | PyBool b => Returned (if b then 1 else 0)
  | PyStr s =>
      match int_of_str B s with
      | Some z => Returned z
      | None => Raised BuiltinValueError
      end
  | _ => Raised BuiltinTypeError
  end.

(** [str(v)] *)
Definition py_str (B : Builtins) (v : PyVal) : string :=
  match v with
  | PyStr s => s
  | PyInt z => pretty z
  | PyBool b => if b then "True" else "False"
  | PyNone => "None"
  | PyObjectId hex => hex
  | _ => str_other B v
  end.

(** [data.get(key)] and [data.get(key, default)] *)
Definition dict_get (d : gmap string PyVal) (key : string) : PyVal :=
  default PyNone (d !! key).

Definition dict_get_or (d : gmap string PyVal) (key : string) (dflt : PyVal)
    : PyVal :=
  default dflt (d !! key).

(** Question objects as a mapper builds them: the constructors check the
    number of options and the index but not the types of the text and of
    the options, which are whatever the document holds. *)
Record DynBase : Type := mkDynBase {
  dyn_question_id : option string;
  dyn_text : PyVal;
  dyn_time_limit_seconds : Z
}.

Inductive DynQuestion : Type :=
| DynChoice (base : DynBase) (options : list PyVal) (correct_index : Z)
| DynTrueFalse (base : DynBase) (correct_answer : bool).

(** [ChoiceQuestion.__init__] on untyped arguments. *)
Definition ChoiceQuestion_new (text : PyVal) (options : list PyVal)
    (correct_index : Z) (time_limit_seconds : Z) (question_id : option string)
    : Result DynQuestion :=
  let base := mkDynBase question_id text time_limit_seconds in
  if bool_decide (options = []) then
    Raise (ValueError "ChoiceQuestion must have at least one option.")
  else if (correct_index <? 0) || (correct_index >=? len options) then
    Raise (ValueError ("correct_index " +:+ pretty correct_index +:+
                       " must be in range [0, " +:+ pretty (len options) +:+ ")"))
  else Ok (DynChoice base options correct_index).

(** [TrueFalseQuestion.__init__] on untyped arguments. *)
Definition TrueFalseQuestion_new (text : PyVal) (correct_answer : bool)
    (time_limit_seconds : Z) (question_id : option string) : DynQuestion :=
  DynTrueFalse (mkDynBase question_id text time_limit_seconds) correct_answer.

(** A typed question seen as the object it is. *)
Definition dyn_question (q : BaseQuestion) : DynQuestion :=
  match q with
  | ChoiceQuestion b options correct_index =>
      DynChoice (mkDynBase (question_id b) (PyStr (text b)) (time_limit_seconds b))
                (PyStr <$> options) correct_index
  | TrueFalseQuestion b correct_answer =>
      DynTrueFalse (mkDynBase (question_id b) (PyStr (text b)) (time_limit_seconds b))
                   correct_answer
  end.

(** [QuestionMapper._extract_id], also [QuizMapper._extract_id] *)
Definition extract_id (B : Builtins) (data : gmap string PyVal) : option string :=
  match dict_get data "_id" with
  | PyNone => None
  | raw => Some (py_str B raw)
  end.

(** [QuestionMapper._map_choice] *)
Definition map_choice (B : Builtins) (data : gmap string PyVal) (text : PyVal)
    (time_limit : Z) (question_id : option string) : Outcome DynQuestion :=
  let options := py_or (dict_get data "options") (PyList []) in
  let options := match options with PyList l => l | _ => [] end in
  and_then (py_int B (dict_get_or data "correct_index" (PyInt 0)))
    (λ correct_index,
       of_result (ChoiceQuestion_new text options correct_index time_limit
                                     question_id)).

(** [QuestionMapper._map_true_false] *)
Definition map_true_false (data : gmap string PyVal) (text : PyVal)
    (time_limit : Z) (question_id : option string) : DynQuestion :=
  let raw := dict_get data "correct_answer" in
  let correct_answer :=
    match raw with
    | PyBool b => b
    | _ =>
        if eq_str raw "true" || eq_str raw "True" || eq_str raw "1" || eq_int raw 1
        then true
        else if eq_str raw "false" || eq_str raw "False" || eq_str raw "0"
                || eq_int raw 0
        then false
        else truthy raw
    end in
  TrueFalseQuestion_new text correct_answer time_limit question_id.

(** [QuestionMapper.from_dict] *)
Definition QuestionMapper_from_dict (B : Builtins) (data : PyVal)
    : Outcome DynQuestion :=
  match data with
  | PyDict d =>
      let q_type := py_or (dict_get d "question_type") (dict_get d "type") in
      let text := dict_get_or d "text" (PyStr EmptyString) in
      and_then (py_int B (dict_get_or d "time_limit_seconds" (PyInt 30)))
        (λ time_limit,
           let question_id := extract_id B d in
           if eq_str q_type "choice" then
             map_choice B d text time_limit question_id
           else if eq_str q_type "true_false" then
             Returned (map_true_false d text time_limit question_id)
           else
             Raised (FromModel (ValueError ("Unknown question_type: "
                                            +:+ repr B q_type))))
  | _ => Raised (FromModel (ValueError "Question data must be a dict."))
  end.

(** [to_mappable_dict] of the two question classes *)
Definition with_id (question_id : option string) (d : gmap string PyVal)
    : gmap string PyVal :=
  match question_id with
  | Some i => <["_id" := PyStr i]> d
  | None => d
  end.

Definition to_mappable_dict (q : BaseQuestion) : gmap string PyVal :=
  match q with
  | ChoiceQuestion b options correct_index =>
      with_id (question_id b)
        (<["question_type" := PyStr "choice"]>
         (<["text" := PyStr (text b)]>
          (<["time_limit_seconds" := PyInt (time_limit_seconds b)]>
           (<["options" := PyList (PyStr <$> options)]>
            (<["correct_index" := PyInt correct_index]> ∅)))))
  | TrueFalseQuestion b correct_answer =>
      with_id (question_id b)
        (<["question_type" := PyStr "true_false"]>
         (<["text" := PyStr (text b)]>
          (<["time_limit_seconds" := PyInt (time_limit_seconds b)]>
           (<["correct_answer" := PyBool correct_answer]> ∅))))
  end.

(** [QuizMapper._extract_datetime]; [value.replace("Z", "+00:00")] is
    [replace_Z]. *)
Fixpoint replace_Z (s : string) : string :=
  match s with
  | EmptyString => EmptyString
  | String c rest =>
      if bool_decide (String c EmptyString = "Z") then "+00:00" +:+ replace_Z rest
      else String c (replace_Z rest)
  end.

Definition extract_datetime (B : Builtins) (value : PyVal) : option Z :=
  match value with
  | PyNone => None
  | PyDatetime t => Some t
  | PyStr s => fromisoformat B (replace_Z s)
  | _ => None
  end.

(** The characters of a string, each a string of its own. *)
Fixpoint chars_of (s : string) : list PyVal :=
  match s with
  | EmptyString => []
  | String c rest => PyStr (String c EmptyString) :: chars_of rest
  end.

(** The items a [for] loop takes from a value, or [TypeError] where the
    value cannot be iterated.  A string gives its characters and a dict its
    keys (here in the order of the map, not of insertion). *)
Definition py_iter (v : PyVal) : Outcome (list PyVal) :=
  match v with
  | PyList l => Returned l
  | PyStr s => Returned (chars_of s)
  | PyDict d => Returned (PyStr <$> (map_to_list d).*1)
  | _ => Raised BuiltinTypeError
  end.

(** The loop of [QuizMapper.from_dict]: entries that are dicts are mapped,
    the first failure ends the loop, other entries are skipped. *)
Fixpoint map_questions (B : Builtins) (items : list PyVal)
    : Outcome (list DynQuestion) :=
  match items with
  | [] => Returned []
  | PyDict d :: rest =>
      and_then (QuestionMapper_from_dict B (PyDict d))
        (λ question,
           and_then (map_questions B rest)
             (λ questions, Returned (question :: questions)))
  | _ :: rest => map_questions B rest
  end.

(** A quiz object as the mapper builds it. *)
Record DynQuiz : Type := mkDynQuiz {
  dyn_quiz_id : option string;
  dyn_title : PyVal;
  dyn_description : PyVal;
  dyn_questions : list DynQuestion;
  dyn_created_at : Z
}.

(** [Quiz.__init__] on untyped arguments. *)
Definition Quiz_new (now : Z) (title : PyVal) (questions : list DynQuestion)
    (quiz_id : option string) (description : PyVal) (created_at : option Z)
    : Result DynQuiz :=
  if bool_decide (questions = []) then
    Raise (ValueError "Quiz must have at least one question.")
  else Ok (mkDynQuiz quiz_id title description questions (or_now created_at now)).


(** [QuizMapper.from_dict] *)
Definition QuizMapper_from_dict (B : Builtins) (now : Z) (data : PyVal)
    : Outcome DynQuiz :=
  match data with
  | PyDict d =>
      let quiz_id := extract_id B d in
      let title := dict_get_or d "title" (PyStr EmptyString) in
      let description := dict_get_or d "description" (PyStr EmptyString) in
      let created_at := extract_datetime B (dict_get d "created_at") in
      let raw_questions := py_or (dict_get d "questions") (PyList []) in
      and_then (py_iter raw_questions)
        (λ items,
           and_then (map_questions B items)
             (λ questions,
                if bool_decide (questions = []) then
                  Raised (FromModel (ValueError
                    "Quiz document must have at least one valid question."))
                else
                  of_result (Quiz_new now title questions quiz_id description
                                      created_at)))
  | _ => Raised (FromModel (ValueError "Quiz data must be a dict."))
  end.



(** Builtins for the examples: [int] reads the string 45 and no other, no
    date is parsed, and [ObjectId] accepts the strings of 24 characters. *)
Definition sample_builtins : Builtins :=
  mkBuiltins
    (λ s, if bool_decide (s = "45") then Some 45 else None)
    (λ _, "<object>")
    (λ v, match v with PyStr s => "'" +:+ s +:+ "'" | _ => "<object>" end)
    (λ _, None)
    (λ s, if bool_decide (String.length s = 24%nat) then OidMade s else OidEscapes).

Definition sample_choice : BaseQuestion :=
  ChoiceQuestion (mkBase (Some "q-1") "Which one?" 20) ["red"; "green"; "blue"] 1.

Definition dyn_base (q : DynQuestion) : DynBase :=
  match q with
  | DynChoice b _ _ | DynTrueFalse b _ => b
  end.

(** The question type a document declares. *)
Definition declared_type (d : gmap string PyVal) : PyVal :=
  py_or (dict_get d "question_type") (dict_get d "type").

Definition is_dict (v : PyVal) : bool :=
  match v with
  | PyDict _ => true
  | _ => false
  end.

(** ** repository/mongo_database.py

    The class is a singleton, so its one instance is the state.  A motor
    client is known by the arguments it was made with. *)
Record MotorClient : Type := mkClient {
  client_uri : string;
  client_kwargs : list (string * PyVal)
}.

Record MongoDatabase : Type := mkMongo {
  mongo_client : option MotorClient;
  mongo_database_name : string;
  mongo_initialized : bool
}.

(** The class attributes, which the instance shows until it is assigned. *)
Definition MongoDatabase_new : MongoDatabase :=
  mkMongo None "quiz_system" false.

(** [MongoDatabase.connect] *)
Definition mongo_connect (uri database_name : string)
    (kwargs : list (string * PyVal)) (db : MongoDatabase) : MongoDatabase :=
  match mongo_client db with
  | None => mkMongo (Some (mkClient uri kwargs)) database_name true
  | Some _ => db
  end.

(** [MongoDatabase.close]: the state after the call, and the client whose
    [close()] was called, if any. *)
Definition mongo_close (db : MongoDatabase) : MongoDatabase * option MotorClient :=
  match mongo_client db with
  | Some c => (mkMongo None (mongo_database_name db) false, Some c)
  | None => (db, None)
  end.

Inductive DbExn : Type :=
| RuntimeError (msg : string).

(** [MongoDatabase.get_database]: [client[name]] is the pair. *)
Definition mongo_get_database (db : MongoDatabase)
    : DbExn + (MotorClient * string) :=
  match mongo_client db with
  | None => inl (RuntimeError
      "MongoDatabase not connected. Call connect(uri, database_name) first.")
  | Some c => inr (c, mongo_database_name db)
  end.

(** [MongoDatabase.is_initialized] *)
Definition mongo_is_initialized (db : MongoDatabase) : bool :=
  mongo_initialized db && bool_decide (is_Some (mongo_client db)).

(** [BaseRepository.get_collection] of a [QuizRepository], whose
    [collection_name] is "quizzes". *)
Definition quiz_collection_name : string := "quizzes".

Definition get_collection (db : MongoDatabase)
    : DbExn + (MotorClient * string * string) :=
  match mongo_get_database db with
  | inl e => inl e
  | inr handle => inr (handle, quiz_collection_name)
  end.

Inductive DbOp : Type :=
| DbConnect (uri database_name : string) (kwargs : list (string * PyVal))
| DbClose.

Definition db_step (op : DbOp) (db : MongoDatabase) : MongoDatabase :=
  match op with
  | DbConnect uri name kwargs => mongo_connect uri name kwargs db
  | DbClose => (mongo_close db).1
  end.

Definition db_run (ops : list DbOp) (db : MongoDatabase) : MongoDatabase :=
  foldl (λ db op, db_step op db) db ops.

(** * Equations of the methods *)

Lemma transition_to_eq (new old : GameState) (s : GameSession) :
  state s = Some old →
  transition_to new s = (tt, after_enter new s, protocol old new s).
Proof.
  destruct s as [? ? ? ? ? ? st cb ?]; cbn; intros ->.
  unfold transition_to, bind, protocol, notify; cbn.
  destruct new, cb; reflexivity.
Qed.

Lemma record_answer_eq (c : string) (s : GameSession) :
  record_answer c s =
    if bool_decide (c ∈ current_question_answered s) then (false, s, [])
    else (true, set_answered (current_question_answered s ∪ {[c]}) s, []).
Proof.
  unfold record_answer, bind; cbn.
  destruct (bool_decide (c ∈ current_question_answered s)); reflexivity.
Qed.

Lemma advance_to_next_question_eq (s : GameSession) :
  advance_to_next_question s =
    if current_question_index s + 1 <? question_count (quiz s)
    then (true, set_current_question_index (current_question_index s + 1) s, [])
    else (false, s, []).
Proof.
  unfold advance_to_next_question, bind; cbn.
  destruct (current_question_index s + 1 <? question_count (quiz s)); reflexivity.
Qed.

Lemma get_next_state_eq (g : GameState) (s : GameSession) :
  get_next_state g s =
    match g with
    | LobbyState =>
        (if question_count (quiz s) =? 0 then None else Some QuestionState, s, [])
    | QuestionState => (Some LeaderboardState, s, [])
    | LeaderboardState =>
        if current_question_index s + 1 <? question_count (quiz s)
        then (Some QuestionState,
              set_current_question_index (current_question_index s + 1) s, [])
        else (Some FinishedState, s, [])
    | FinishedState => (None, s, [])
    end.
Proof.
  destruct g; cbn; try reflexivity.
  - unfold bind; cbn. destruct (question_count (quiz s) =? 0); reflexivity.
  - unfold bind; cbn.
    destruct (current_question_index s + 1 <? question_count (quiz s)) eqn:E;
      cbn; [|reflexivity].
    rewrite E; reflexivity.
Qed.

Lemma trigger_next_eq (s : GameSession) :
  trigger_next s =
    match state s with
    | Some QuestionState =>
        (true, after_enter LeaderboardState s,
         protocol QuestionState LeaderboardState s)
    | Some LeaderboardState =>
        if current_question_index s + 1 <? question_count (quiz s)
        then (true,
              after_enter QuestionState
                (set_current_question_index (current_question_index s + 1) s),
              protocol LeaderboardState QuestionState s)
        else (true, after_enter FinishedState s,
              protocol LeaderboardState FinishedState s)
    | _ => (false, s, [])
    end.
Proof.
  destruct s as [? ? ? ? i ? st cb ?]; unfold trigger_next, bind; cbn.
  destruct st as [[]|]; cbn; try reflexivity.
  - destruct cb; reflexivity.
  - destruct (i + 1 <? question_count quiz0) eqn:E; cbn.
    + rewrite E; cbn. destruct cb; reflexivity.
    + destruct cb; reflexivity.
Qed.

Lemma trigger_start_question_eq (s : GameSession) :
  trigger_start_question s =
    match state s with
    | Some LobbyState =>
        if question_count (quiz s) =? 0 then (false, s, [])
        else (true, after_enter QuestionState s,
              protocol LobbyState QuestionState s)
    | _ => (false, s, [])
    end.
Proof.
  destruct s as [? ? ? ? i ? st cb ?]; unfold trigger_start_question, bind; cbn.
  destruct st as [[]|]; cbn; try reflexivity.
  destruct (question_count quiz0 =? 0); cbn; [reflexivity|].
  destruct cb; reflexivity.
Qed.

(** * Sequencing *)

#[local] Arguments record_answer : simpl never.
#[local] Arguments trigger_next : simpl never.
#[local] Arguments trigger_start_question : simpl never.

Lemma session_of_run_cons op ops s :
  session_of (run (op :: ops) s) = session_of (run ops (session_of (perform op s))).
Proof. reflexivity. Qed.

Lemma trace_of_run_cons op ops s :
  trace_of (run (op :: ops) s) =
    trace_of (perform op s) ++ trace_of (run ops (session_of (perform op s))).
Proof. reflexivity. Qed.

Lemma entered_app t1 t2 : entered (t1 ++ t2) = entered t1 ++ entered t2.
Proof. apply omap_app. Qed.

Lemma entered_protocol old new s : entered (protocol old new s) = [new].
Proof. unfold protocol, notify. destruct (broadcast_callback s); reflexivity. Qed.

Lemma broadcasts_protocol old new s :
  broadcasts (protocol old new s) = option_list (broadcast_callback s).
Proof. unfold protocol, notify. destruct (broadcast_callback s); reflexivity. Qed.

Lemma state_after_enter new s : state (after_enter new s) = Some new.
Proof. destruct new; reflexivity. Qed.

Lemma cursor_after_enter new s :
  current_question_index (after_enter new s) = current_question_index s.
Proof. destruct new; reflexivity. Qed.

Lemma quiz_after_enter new s : quiz (after_enter new s) = quiz s.
Proof. destruct new; reflexivity. Qed.

Lemma players_after_enter new s : players (after_enter new s) = players s.
Proof. destruct new; reflexivity. Qed.

Lemma perform_effect op s :
  op_effect s (session_of (perform op s)) (trace_of (perform op s)).
Proof.
  destruct op as [p|c|c|cb| |]; cbn.
  - apply eff_players.
  - apply eff_players.
  - unfold bind, session_of, trace_of; cbn. rewrite record_answer_eq.
    case_bool_decide; cbn; [apply eff_none | by apply eff_answer].
  - apply eff_callback.
  - unfold bind, session_of, trace_of; cbn. rewrite trigger_start_question_eq.
    destruct (state s) as [[]|] eqn:E; cbn; try apply eff_none.
    destruct (Z.eqb_spec (question_count (quiz s)) 0); cbn;
      rewrite ?app_nil_r; [apply eff_none | by apply eff_start].
  - unfold bind, session_of, trace_of; cbn. rewrite trigger_next_eq.
    destruct (state s) as [[]|] eqn:E; cbn; rewrite ?app_nil_r;
      try apply eff_none.
    + by apply eff_show.
    + destruct (Z.ltb_spec (current_question_index s + 1) (question_count (quiz s)));
        cbn; rewrite ?app_nil_r; [by apply eff_again | apply eff_finish; [done|lia]].
Qed.

(** * The lifecycle *)

Lemma rounds_S k : rounds (S k) = rounds k ++ [LeaderboardState; QuestionState].
Proof.
  unfold rounds. rewrite replicate_S_end, join_app. reflexivity.
Qed.

Lemma rounds_add j k : rounds (j + k) = rounds j ++ rounds k.
Proof. unfold rounds. by rewrite replicate_add, join_app. Qed.

Lemma history_inv_init now pin q sid created :
  questions q ≠ [] →
  history_inv q (GameSession_init now pin q sid created None) [LobbyState].
Proof.
  intros Hq. unfold history_inv, question_count, len; cbn.
  destruct (questions q); [done|]. cbn. repeat split; lia.
Qed.

Lemma history_inv_step q s hist s' tr :
  op_effect s s' tr →
  history_inv q s hist →
  history_inv q s' (hist ++ entered tr).
Proof.
  intros Heff (Hq & Hi & Hst).
  destruct Heff as [|m|cb|c Hc|Hs Hn|Hs|Hs Hlt|Hs Hge];
    cbn [entered omap]; rewrite ?entered_protocol, ?app_nil_r;
    try (split; [|split]; assumption);
    rewrite Hs in Hst; cbn in Hst;
    (split; [|split]); rewrite ?quiz_after_enter, ?cursor_after_enter,
      ?state_after_enter; cbn; try done.
  - destruct Hst as [-> Hz]. rewrite Hz. reflexivity.
  - subst hist. by rewrite <- ?app_assoc.
  - subst q. lia.
  - subst hist.
    replace (Z.to_nat (current_question_index s + 1))
      with (S (Z.to_nat (current_question_index s))) by lia.
    rewrite rounds_S. cbn. by rewrite <- ?app_assoc.
  - subst hist q. split; [|lia]. cbn. by rewrite <- ?app_assoc.
Qed.

Lemma history_inv_run q ops : ∀ s hist,
  history_inv q s hist →
  history_inv q (session_of (run ops s)) (hist ++ entered (trace_of (run ops s))).
Proof.
  induction ops as [|op ops IH]; intros s hist H.
  - cbn. by rewrite app_nil_r.
  - rewrite session_of_run_cons, trace_of_run_cons, entered_app, app_assoc.
    apply IH. eapply history_inv_step; [apply perform_effect|done].
Qed.

Lemma history_inv_prefix q s hist :
  history_inv q s hist →
  hist `prefix_of` lifecycle_states (Z.to_nat (question_count q - 1)).
Proof.
  intros (Hq & Hi & Hst). unfold lifecycle_states.
  cbv zeta in Hst.
  set (k := Z.to_nat (current_question_index s)) in *.
  set (n := Z.to_nat (question_count q - 1)).
  assert (Hn : n = (k + (n - k))%nat) by lia.
  destruct (state s) as [[]|]; [| | | |done].
  - destruct Hst as [-> _]. by eexists.
  - subst hist. rewrite Hn, rounds_add, <- !app_assoc.
    apply prefix_app, prefix_app_r. done.
  - subst hist. rewrite Hn, rounds_add, <- !app_assoc.
    do 2 apply prefix_app.
    destruct (n - k)%nat as [|j].
    + by exists [FinishedState].
    + change (rounds (S j)) with ([LeaderboardState] ++ QuestionState :: rounds j).
      rewrite <- app_assoc. apply prefix_app_r. done.
  - destruct Hst as [-> Hlast].
    replace n with k by lia. done.
Qed.

(** * Host commands *)

(** The test [old = Leaderboard ∧ new = Question] fails by the first or by
    the second component. *)
Ltac not_next_round :=
  rewrite decide_False by (intros [? ?]; discriminate); reflexivity.

(** A host command either is refused and changes nothing, or moves the
    session along one arrow of the lifecycle by the transition protocol;
    only the arrow from Leaderboard to Question advances the cursor. *)
Lemma host_command_cases (trigger : M bool) (s : GameSession) :
  host_command trigger →
  (trigger s = (false, s, [])) ∨
  (∃ old new, state s = Some old ∧ edge old new = true ∧
     trigger s = (true,
                  after_enter new
                    (if decide (old = LeaderboardState ∧ new = QuestionState)
                     then set_current_question_index (current_question_index s + 1) s
                     else s),
                  protocol old new s)).
Proof.
  intros [-> | ->].
  - rewrite trigger_next_eq. destruct (state s) as [[]|]; auto.
    + right. exists QuestionState, LeaderboardState.
      do 2 (split; [done|]). not_next_round.
    + right. destruct (_ <? _).
      * exists LeaderboardState, QuestionState. by rewrite decide_True.
      * exists LeaderboardState, FinishedState.
        do 2 (split; [done|]). not_next_round.
  - rewrite trigger_start_question_eq. destruct (state s) as [[]|]; auto.
    destruct (_ =? _); auto.
    right. exists LobbyState, QuestionState.
    do 2 (split; [done|]). not_next_round.
Qed.

(** * The lifecycle of a session *)

(** C1. On a non-empty quiz, the state names a session shows under any
    sequence of public operations (so under any sequence of
    [trigger_start_question] and [trigger_next] calls) form a prefix of
    lobby, question, (leaderboard, question)^(n-1), leaderboard, finished,
    where n is the number of questions.  Every successful host command moves
    the session along one arrow Lobby->Question, Question->Leaderboard,
    Leaderboard->Question or Leaderboard->Finished and assigns the state
    exactly once; Lobby is never entered again, and in Finished both
    commands are refused and change nothing. *)
Theorem state_sequence_follows_lifecycle (q : Quiz) :
  questions q ≠ [] →
  (∀ now pin sid created ops,
     observed (GameSession_init now pin q sid created None) ops
       `prefix_of` lifecycle (Z.to_nat (question_count q - 1)))
  ∧ (∀ trigger s s' tr,
       host_command trigger → quiz s = q → trigger s = (true, s', tr) →
       ∃ a b, state s = Some a ∧ state s' = Some b ∧ edge a b = true
              ∧ b ≠ LobbyState ∧ entered tr = [b])
  ∧ (∀ trigger s,
       host_command trigger → quiz s = q → state s = Some FinishedState →
       trigger s = (false, s, [])).
Proof.
  intros Hq. split; [|split].
  - intros now pin sid created ops. unfold observed, lifecycle.
    set (s0 := GameSession_init now pin q sid created None).
    destruct (history_inv_prefix q (session_of (run ops s0))
                ([LobbyState] ++ entered (trace_of (run ops s0)))) as [k Hk].
    { apply history_inv_run. by apply history_inv_init. }
    exists (state_name <$> k). rewrite <- fmap_app. f_equal. exact Hk.
  - intros trigger s s' tr Hc _ Hrun.
    destruct (host_command_cases trigger s Hc) as [Hno | (a & b & Ha & He & Hyes)].
    + congruence.
    + rewrite Hyes in Hrun. injection Hrun as <- <-.
      exists a, b. rewrite state_after_enter, entered_protocol.
      repeat split; try done. by destruct a, b.
  - intros trigger s Hc _ Hfin.
    destruct (host_command_cases trigger s Hc) as [Hno | (a & b & Ha & He & _)];
      [done|].
    rewrite Hfin in Ha. injection Ha as <-. by destruct b.
Qed.

(** A whole game on the sample quiz of three questions. *)
Lemma state_sequence_follows_lifecycle_witness :
  questions sample_quiz3 ≠ []
  ∧ observed sample_session3 host_script3 `prefix_of` lifecycle 2
  ∧ (∃ a b,
       state sample_session3 = Some a
       ∧ state (session_of (trigger_start_question sample_session3)) = Some b
       ∧ edge a b = true ∧ b ≠ LobbyState
       ∧ entered (trace_of (trigger_start_question sample_session3)) = [b])
  ∧ (let s := session_of (run host_script3 sample_session3) in
     state s = Some FinishedState ∧ trigger_next s = (false, s, [])).
Proof.
  assert (Hq : questions sample_quiz3 ≠ []) by discriminate.
  destruct (state_sequence_follows_lifecycle sample_quiz3 Hq) as (H1 & H2 & H3).
  split; [exact Hq|]. split; [|split].
  - exact (H1 0 "4712" None None host_script3).
  - apply (H2 trigger_start_question sample_session3); [by right| |]; reflexivity.
  - split; [reflexivity|]. apply H3; [by left| |]; reflexivity.
Defined.

(** * Recording answers *)

(** C2. [record_answer c] returns true and adds [c] to the answered-set
    exactly when [c] was not in it, and otherwise returns false and leaves
    the session as it was.  Whenever a host command has just moved the
    session into the Question state the answered-set is empty, so there the
    first call for [c] returns true and the call right after it returns
    false, the session staying in the Question state; this holds again after
    every later transition into the Question state, also for a [c] that
    answered the question before. *)
Theorem record_answer_once_per_question (s : GameSession) (c : string) :
  (c ∉ current_question_answered s →
     record_answer c s =
       (true, set_answered (current_question_answered s ∪ {[c]}) s, []))
  ∧ (c ∈ current_question_answered s → record_answer c s = (false, s, []))
  ∧ (value_of (record_answer c s) = true ↔ c ∉ current_question_answered s)
  ∧ (c ∉ current_question_answered s →
       let r1 := record_answer c s in
       let r2 := record_answer c (session_of r1) in
       value_of r1 = true ∧ value_of r2 = false
       ∧ c ∈ current_question_answered (session_of r1)
       ∧ session_of r2 = session_of r1
       ∧ state (session_of r2) = state s)
  ∧ (∀ trigger s' tr,
       host_command trigger → trigger s = (true, s', tr) →
       state s' = Some QuestionState →
       let r1 := record_answer c s' in
       let r2 := record_answer c (session_of r1) in
       current_question_answered s' = ∅
       ∧ value_of r1 = true ∧ value_of r2 = false
       ∧ state (session_of r2) = Some QuestionState).
Proof.
  assert (Hfirst : ∀ s0 : GameSession, c ∉ current_question_answered s0 →
            let r1 := record_answer c s0 in
            let r2 := record_answer c (session_of r1) in
            value_of r1 = true ∧ value_of r2 = false
            ∧ c ∈ current_question_answered (session_of r1)
            ∧ session_of r2 = session_of r1
            ∧ state (session_of r2) = state s0).
  { intros s0 Hc. cbv zeta. rewrite (record_answer_eq c s0).
    rewrite bool_decide_eq_false_2 by done. cbn.
    rewrite record_answer_eq. cbn.
    rewrite bool_decide_eq_true_2 by set_solver. cbn.
    repeat split; set_solver. }
  split; [|split; [|split; [|split]]].
  - intros Hc. rewrite record_answer_eq. by rewrite bool_decide_eq_false_2.
  - intros Hc. rewrite record_answer_eq. by rewrite bool_decide_eq_true_2.
  - rewrite record_answer_eq. case_bool_decide; cbn; split; try done.
  - apply Hfirst.
  - intros trigger s' tr Hc Hrun Hst.
    assert (He : current_question_answered s' = ∅).
    { destruct (host_command_cases trigger s Hc) as [Hno | (a & b & _ & _ & Hyes)];
        [congruence|].
      rewrite Hyes in Hrun. injection Hrun as <- <-.
      rewrite state_after_enter in Hst. injection Hst as ->. reflexivity. }
    destruct (Hfirst s') as (H1 & H2 & _ & _ & H5); [rewrite He; set_solver|].
    cbv zeta. rewrite H5. done.
Qed.

(** The first question of the sample game, answered twice by one connection. *)
Lemma record_answer_once_per_question_witness :
  let s := session_of (trigger_start_question sample_session3) in
  let r1 := record_answer "conn-1" s in
  let r2 := record_answer "conn-1" (session_of r1) in
  state s = Some QuestionState
  ∧ ("conn-1" ∉ current_question_answered sample_session3)
  ∧ ("conn-1" ∈ current_question_answered (session_of r1))
  ∧ value_of (record_answer "conn-1" sample_session3) = true
  ∧ r2 = (false, session_of r1, [])
  ∧ value_of r1 = true ∧ value_of r2 = false.
Proof.
  intros s r1 r2.
  assert (Hout : "conn-1" ∉ current_question_answered sample_session3)
    by apply not_elem_of_empty.
  assert (Hin : "conn-1" ∈ current_question_answered (session_of r1)).
  { apply (bool_decide_unpack _). vm_compute. exact I. }
  destruct (record_answer_once_per_question sample_session3 "conn-1")
    as (H1 & _ & _ & _ & H5).
  destruct (record_answer_once_per_question (session_of r1) "conn-1")
    as (_ & H2 & _).
  destruct (H5 trigger_start_question s
              (trace_of (trigger_start_question sample_session3)))
    as (_ & Ht & Hf & _); [by right|reflexivity|reflexivity|].
  split; [reflexivity|]. split; [exact Hout|]. split; [exact Hin|].
  split; [by rewrite (H1 Hout)|]. split; [exact (H2 Hin)|].
  split; assumption.
Defined.

(** * The transition protocol *)

(** C3. A successful host command runs the transition protocol in this
    order and nothing else: [on_leave] of the outgoing state, the
    assignment of the successor to the state reference, [on_enter] of the
    incoming state, then one call of the registered callback, or no call
    when none is registered.  The callback is therefore called exactly once
    per successful transition, and whether one is registered or not changes
    neither the result of a command nor the session it leaves. *)
Theorem transition_runs_protocol_in_order (s : GameSession) :
  (∀ trigger s' tr,
     host_command trigger → trigger s = (true, s', tr) →
     ∃ old new,
       state s = Some old ∧ state s' = Some new
       ∧ tr = [EvOnLeave old; EvSetState new; EvOnEnter new]
                ++ match broadcast_callback s with
                   | Some f => [EvBroadcast f]
                   | None => []
                   end
       ∧ broadcasts tr = option_list (broadcast_callback s))
  ∧ (∀ old new,
       state s = Some old →
       trace_of (transition_to new s)
         = [EvOnLeave old; EvSetState new; EvOnEnter new]
             ++ option_list (EvBroadcast <$> broadcast_callback s)
       ∧ state (session_of (transition_to new s)) = Some new)
  ∧ (∀ trigger cb,
       host_command trigger →
       value_of (trigger (set_callback cb s)) = value_of (trigger s)
       ∧ session_of (trigger (set_callback cb s))
           = set_callback cb (session_of (trigger s))).
Proof.
  split; [|split].
  - intros trigger s' tr Hc Hrun.
    destruct (host_command_cases trigger s Hc) as [Hno | (a & b & Ha & _ & Hyes)];
      [congruence|].
    rewrite Hyes in Hrun. injection Hrun as <- <-.
    exists a, b. rewrite state_after_enter, broadcasts_protocol. done.
  - intros old new Hs. rewrite (transition_to_eq new old s Hs). cbn.
    rewrite state_after_enter. split; [|done].
    unfold notify. by destruct (broadcast_callback s).
  - intros trigger cb [-> | ->].
    + rewrite !trigger_next_eq. cbn.
      destruct (state s) as [[]|]; try done.
      by destruct (_ <? _).
    + rewrite !trigger_start_question_eq. cbn.
      destruct (state s) as [[]|]; try done.
      by destruct (_ =? _).
Qed.

(** The first transition of the sample game, with and without a callback. *)
Lemma transition_runs_protocol_in_order_witness :
  let hook := callback_ref 7 in
  let s := set_callback (Some hook) sample_session3 in
  trigger_start_question s
    = (true, after_enter QuestionState s, protocol LobbyState QuestionState s)
  ∧ (∃ old new,
       state s = Some old
       ∧ state (after_enter QuestionState s) = Some new
       ∧ protocol LobbyState QuestionState s
           = [EvOnLeave old; EvSetState new; EvOnEnter new] ++ [EvBroadcast hook]
       ∧ broadcasts (protocol LobbyState QuestionState s) = [hook])
  ∧ state sample_session3 = Some LobbyState
  ∧ trace_of (transition_to QuestionState sample_session3)
      = [EvOnLeave LobbyState; EvSetState QuestionState; EvOnEnter QuestionState].
Proof.
  intros hook s.
  assert (Hrun : trigger_start_question s
            = (true, after_enter QuestionState s,
               protocol LobbyState QuestionState s)) by reflexivity.
  assert (Hst : state sample_session3 = Some LobbyState) by reflexivity.
  split; [exact Hrun|]. split; [|split; [exact Hst|]].
  - apply (proj1 (transition_runs_protocol_in_order s) trigger_start_question);
      [by right | exact Hrun].
  - destruct (proj1 (proj2 (transition_runs_protocol_in_order sample_session3))
                LobbyState QuestionState Hst) as [Htr _].
    rewrite Htr. reflexivity.
Defined.

(** C4. A host command that is refused changes nothing: when the current
    state's legality predicate is false, or its [get_next_state] returns
    nothing, or there is no current state, the command returns false, the
    session is the same as before (state, cursor, answered-set, players and
    every other field) and no call is made on a state or on the callback.
    A false result always means this.  [trigger_start_question] is refused
    in the question, leaderboard and finished states, and [trigger_next] in
    the finished state. *)
Theorem refused_command_changes_nothing (s : GameSession) :
  (∀ g, state s = Some g →
        value_of (can_go_next g s) = false ∨ value_of (get_next_state g s) = None →
        trigger_next s = (false, s, []))
  ∧ (∀ g, state s = Some g →
          value_of (can_start_question g s) = false
          ∨ value_of (get_next_state g s) = None →
          trigger_start_question s = (false, s, []))
  ∧ (state s = None →
       trigger_next s = (false, s, []) ∧ trigger_start_question s = (false, s, []))
  ∧ (∀ trigger, host_command trigger →
       value_of (trigger s) = false → trigger s = (false, s, []))
  ∧ (state s = Some QuestionState ∨ state s = Some LeaderboardState
     ∨ state s = Some FinishedState →
       trigger_start_question s = (false, s, []))
  ∧ (state s = Some FinishedState → trigger_next s = (false, s, [])).
Proof.
  split; [|split; [|split; [|split; [|split]]]].
  - intros g Hs H. rewrite trigger_next_eq, Hs.
    rewrite get_next_state_eq in H.
    destruct g; cbn in H; try done; try (destruct H; discriminate).
    destruct (_ <? _); destruct H; discriminate.
  - intros g Hs H. rewrite trigger_start_question_eq, Hs.
    rewrite get_next_state_eq in H.
    destruct g; cbn in H; try done.
    destruct (_ =? _); [done|]. destruct H; discriminate.
  - intros Hs. by rewrite trigger_next_eq, trigger_start_question_eq, Hs.
  - intros trigger Hc Hv.
    destruct (host_command_cases trigger s Hc) as [Hno | (a & b & _ & _ & Hyes)];
      [done|].
    rewrite Hyes in Hv. discriminate.
  - intros H. rewrite trigger_start_question_eq.
    destruct H as [-> | [-> | ->]]; reflexivity.
  - intros Hs. by rewrite trigger_next_eq, Hs.
Qed.

(** Starting a question twice, and asking for the next step in the lobby. *)
Lemma refused_command_changes_nothing_witness :
  let s := session_of (trigger_start_question sample_session3) in
  state s = Some QuestionState
  ∧ trigger_start_question s = (false, s, [])
  ∧ value_of (can_go_next LobbyState sample_session3) = false
  ∧ trigger_next sample_session3 = (false, sample_session3, []).
Proof.
  intros s.
  destruct (refused_command_changes_nothing s) as (_ & _ & _ & _ & H5 & _).
  destruct (refused_command_changes_nothing sample_session3) as (H1 & _).
  split; [reflexivity|]. split; [apply H5; by left|].
  split; [reflexivity|]. apply (H1 LobbyState); [reflexivity | by left].
Defined.

(** * The question cursor *)

Lemma get_question_at_is_Some (q : Quiz) (i : Z) :
  is_Some (get_question_at q i) ↔ 0 ≤ i < question_count q.
Proof.
  unfold get_question_at, question_count, len.
  destruct (Z.leb_spec 0 i), (Z.ltb_spec i (Z.of_nat (length (questions q))));
    cbn; rewrite ?lookup_lt_is_Some; split; try lia; try (intros []; discriminate).
Qed.

Lemma get_question_at_None (q : Quiz) (i : Z) :
  get_question_at q i = None ↔ ¬ (0 ≤ i < question_count q).
Proof. rewrite <- get_question_at_is_Some, eq_None_not_Some. done. Qed.

Lemma Quiz_init_Ok_nonempty now title qs qid descr created (q : Quiz) :
  Quiz_init now title qs qid descr created = Ok q → questions q ≠ [].
Proof.
  unfold Quiz_init. case_bool_decide as Hq; [discriminate|].
  by intros [= <-].
Qed.

Lemma op_effect_cursor_nonneg s s' tr :
  op_effect s s' tr →
  0 ≤ current_question_index s → 0 ≤ current_question_index s'.
Proof.
  intros [|m|cb|c Hc|Hs Hn|Hs|Hs Hlt|Hs Hge] Hi;
    rewrite ?cursor_after_enter; cbn; lia.
Qed.

Lemma run_cursor_nonneg ops : ∀ s : GameSession,
  0 ≤ current_question_index s →
  0 ≤ current_question_index (session_of (run ops s)).
Proof.
  induction ops as [|op ops IH]; intros s Hi; [exact Hi|].
  rewrite session_of_run_cons. apply IH.
  eapply op_effect_cursor_nonneg; [apply perform_effect|exact Hi].
Qed.

(** C5. The cursor is never negative in a session that the constructor and
    the public operations produce.  For every session whose cursor is not
    negative, [advance_to_next_question] returns true
    exactly when cursor+1 is a valid question index; it then adds one to the
    cursor, and otherwise returns false and leaves the session as it was.
    [get_next_state] of the Leaderboard state advances the cursor and
    returns the Question state when a next question exists, and returns the
    Finished state without touching the session otherwise.  On a quiz of one
    question the cursor is 0 after any sequence of operations and the game
    runs lobby, question, leaderboard, finished; on a quiz of three
    questions a game visits the cursors 0, 1, 2 in order and goes from the
    leaderboard of question 2 to Finished. *)
Theorem cursor_advances_while_questions_remain :
  (∀ s : GameSession,
     0 ≤ current_question_index s →
     let next := current_question_index s + 1 in
     (value_of (advance_to_next_question s) = true
        ↔ is_Some (get_question_at (quiz s) next))
     ∧ (is_Some (get_question_at (quiz s) next) →
          advance_to_next_question s = (true, set_current_question_index next s, [])
          ∧ get_next_state LeaderboardState s
              = (Some QuestionState, set_current_question_index next s, []))
     ∧ (get_question_at (quiz s) next = None →
          advance_to_next_question s = (false, s, [])
          ∧ get_next_state LeaderboardState s = (Some FinishedState, s, [])))
  ∧ (∀ now pin q sid created initial ops,
       0 ≤ current_question_index
             (session_of (run ops (GameSession_init now pin q sid created initial))))
  ∧ (∀ now pin q sid created q1 ops,
       questions q = [q1] →
       let s0 := GameSession_init now pin q sid created None in
       current_question_index (session_of (run ops s0)) = 0
       ∧ snapshots host_script1 s0
           = [(Some LobbyState, 0); (Some QuestionState, 0);
              (Some LeaderboardState, 0); (Some FinishedState, 0)])
  ∧ (∀ now pin q sid created q1 q2 q3,
       questions q = [q1; q2; q3] →
       snapshots host_script3 (GameSession_init now pin q sid created None)
         = [(Some LobbyState, 0);
            (Some QuestionState, 0); (Some LeaderboardState, 0);
            (Some QuestionState, 1); (Some LeaderboardState, 1);
            (Some QuestionState, 2); (Some LeaderboardState, 2);
            (Some FinishedState, 2)]).
Proof.
  split; [|split; [|split]].
  - intros s Hi next.
    rewrite get_question_at_None, get_question_at_is_Some,
      advance_to_next_question_eq, get_next_state_eq.
    subst next.
    destruct (Z.ltb_spec (current_question_index s + 1) (question_count (quiz s)));
      cbn; repeat split; try done; try lia.
  - intros now pin q sid created initial ops. by apply run_cursor_nonneg.
  - intros now pin q sid created q1 ops Hq s0. split.
    + destruct (history_inv_run q ops s0 [LobbyState]) as (_ & Hi & _).
      { apply history_inv_init. by rewrite Hq. }
      unfold question_count, len in Hi. rewrite Hq in Hi. cbn in Hi. lia.
    + subst s0. destruct q as [? ? ? qs ?]. cbn in Hq. subst qs. reflexivity.
  - intros now pin q sid created q1 q2 q3 Hq.
    destruct q as [? ? ? qs ?]. cbn in Hq. subst qs. reflexivity.
Qed.

(** The cursor in the sample games of one and of three questions. *)
Lemma cursor_advances_while_questions_remain_witness :
  0 ≤ current_question_index sample_session3
  ∧ is_Some (get_question_at (quiz sample_session3) 1)
  ∧ advance_to_next_question sample_session3
      = (true, set_current_question_index 1 sample_session3, [])
  ∧ get_question_at (quiz sample_session1) 1 = None
  ∧ get_next_state LeaderboardState sample_session1
      = (Some FinishedState, sample_session1, [])
  ∧ snapshots host_script1 sample_session1
      = [(Some LobbyState, 0); (Some QuestionState, 0);
         (Some LeaderboardState, 0); (Some FinishedState, 0)]
  ∧ snapshots host_script3 sample_session3
      = [(Some LobbyState, 0);
         (Some QuestionState, 0); (Some LeaderboardState, 0);
         (Some QuestionState, 1); (Some LeaderboardState, 1);
         (Some QuestionState, 2); (Some LeaderboardState, 2);
         (Some FinishedState, 2)].
Proof.
  destruct cursor_advances_while_questions_remain as (H1 & _ & H3 & H4).
  assert (Hi3 : 0 ≤ current_question_index sample_session3) by done.
  assert (Hi1 : 0 ≤ current_question_index sample_session1) by done.
  assert (Hsome : is_Some (get_question_at (quiz sample_session3) 1))
    by (by eexists).
  assert (Hnone : get_question_at (quiz sample_session1) 1 = None)
    by reflexivity.
  split; [exact Hi3|]. split; [exact Hsome|].
  split; [apply (H1 sample_session3 Hi3), Hsome|].
  split; [exact Hnone|].
  split; [apply (H1 sample_session1 Hi1), Hnone|].
  split.
  - apply (H3 0 "4711" sample_quiz1 None None (sample_question 10) []).
    reflexivity.
  - apply (H4 0 "4712" sample_quiz3 None None
              (sample_question 10) (sample_question 20) (sample_question 30)).
    reflexivity.
Defined.

(** C6, as stated, fails: a session that is still in the lobby, and one that
    has finished, both return a question. *)
Lemma current_question_present_in_lobby_and_finished :
  ¬ absent_outside_play sample_session1 []
  ∧ ¬ absent_outside_play sample_session1 host_script1
  ∧ state sample_session1 = Some LobbyState
  ∧ value_of (get_current_question sample_session1) = Some (sample_question 10)
  ∧ state (session_of (run host_script1 sample_session1)) = Some FinishedState
  ∧ value_of (get_current_question (session_of (run host_script1 sample_session1)))
      = Some (sample_question 10).
Proof.
  split; [|split]; [| |done].
  - intros [_ H]. discriminate H. left. cbn. apply not_elem_of_nil.
  - intros [_ H]. discriminate H. right. reflexivity.
Qed.

(** C6, amended. [get_current_question] does not look at the lifecycle
    state: it leaves the session as it is and returns the quiz's question at
    the cursor when the cursor is a valid index, and nothing otherwise.  In
    every session that the public operations produce from a new session on a
    non-empty quiz the cursor is a valid index, so a question is always
    returned: in the lobby the first one (cursor 0), and once finished the
    last one. *)
Theorem current_question_is_question_at_cursor :
  (∀ s : GameSession,
     session_of (get_current_question s) = s
     ∧ (0 ≤ current_question_index s < question_count (quiz s) →
          value_of (get_current_question s)
            = questions (quiz s) !! Z.to_nat (current_question_index s))
     ∧ (value_of (get_current_question s) = None
          ↔ ¬ (0 ≤ current_question_index s < question_count (quiz s)))
     ∧ (∀ g, value_of (get_current_question (set_state g s))
               = value_of (get_current_question s)))
  ∧ (∀ s0 ops,
       fresh_session s0 →
       let s := session_of (run ops s0) in
       (∃ qn, value_of (get_current_question s) = Some qn
              ∧ questions (quiz s0) !! Z.to_nat (current_question_index s) = Some qn)
       ∧ (state s = Some LobbyState → current_question_index s = 0)
       ∧ (state s = Some FinishedState →
            current_question_index s = question_count (quiz s0) - 1)).
Proof.
  split.
  - intros s. split; [done|]. split; [|split; [|done]].
    + intros Hi. cbn. unfold get_question_at.
      change (len (questions (quiz s))) with (question_count (quiz s)).
      destruct (Z.leb_spec 0 (current_question_index s)),
        (Z.ltb_spec (current_question_index s) (question_count (quiz s)));
        cbn; try done; lia.
    + apply get_question_at_None.
  - intros s0 ops (now & pin & q & sid & created & Hq & ->) s.
    destruct (history_inv_run q ops (GameSession_init now pin q sid created None)
                [LobbyState]) as (Hquiz & Hi & Hst).
    { by apply history_inv_init. }
    fold s in Hquiz, Hi, Hst. cbn [quiz GameSession_init].
    split; [|split].
    + destruct (proj2 (get_question_at_is_Some q (current_question_index s)) Hi)
        as [qn Hqn].
      exists qn. cbn. rewrite Hquiz. split; [done|].
      unfold get_question_at in Hqn.
      by destruct (_ && _).
    + intros Hs. rewrite Hs in Hst. by destruct Hst.
    + intros Hs. rewrite Hs in Hst. destruct Hst as [_ Hlast]. lia.
Qed.

(** The sample game of one question, in the lobby and once finished. *)
Lemma current_question_is_question_at_cursor_witness :
  fresh_session sample_session1
  ∧ 0 ≤ current_question_index sample_session1
        < question_count (quiz sample_session1)
  ∧ value_of (get_current_question sample_session1) = Some (sample_question 10)
  ∧ ∃ qn, value_of (get_current_question
                      (session_of (run host_script1 sample_session1))) = Some qn.
Proof.
  assert (Hf : fresh_session sample_session1).
  { exists 0, "4711", sample_quiz1, None, None. split; [discriminate|reflexivity]. }
  assert (Hi : 0 ≤ current_question_index sample_session1
                 < question_count (quiz sample_session1)) by done.
  destruct current_question_is_question_at_cursor as (H1 & H2).
  split; [exact Hf|]. split; [exact Hi|]. split.
  - destruct (H1 sample_session1) as (_ & Hat & _). rewrite (Hat Hi). reflexivity.
  - destruct (H2 sample_session1 host_script1 Hf) as ((qn & Hqn & _) & _).
    by exists qn.
Defined.

(** * Player scores *)

(** C7, at the failing input. The score setter rejects a negative value and
    keeps the stored score, but [add_score] with a negative argument larger
    in magnitude than the score succeeds and stores a negative score. *)
Theorem add_score_stores_negative_score :
  Player_set_score sample_player (-5)
    = (Raise (ValueError "Score cannot be negative."), sample_player)
  ∧ score sample_player = 0
  ∧ (Player_add_score sample_player (-5)).1 = Ok tt
  ∧ score (Player_add_score sample_player (-5)).2 = -5.
Proof. repeat split. Qed.

(** * The answered-set and the player map *)

Lemma answered_after_enter new s :
  current_question_answered (after_enter new s) ⊆ current_question_answered s.
Proof. destruct new; cbn; set_solver. Qed.

Lemma perform_record_answer c s :
  session_of (perform (OpRecordAnswer c) s) = session_of (record_answer c s).
Proof. reflexivity. Qed.

Lemma perform_trigger_start_question s :
  session_of (perform OpTriggerStartQuestion s)
    = session_of (trigger_start_question s).
Proof. reflexivity. Qed.

Lemma perform_trigger_next s :
  session_of (perform OpTriggerNext s) = session_of (trigger_next s).
Proof. reflexivity. Qed.

(** A host command keeps the players and can only empty the answered-set. *)
Lemma host_command_answered trigger s :
  host_command trigger →
  players (session_of (trigger s)) = players s
  ∧ current_question_answered (session_of (trigger s))
      ⊆ current_question_answered s.
Proof.
  intros Hc.
  destruct (host_command_cases trigger s Hc) as [-> | (a & b & _ & _ & ->)];
    [done|].
  cbn. rewrite players_after_enter. split.
  - by destruct (decide _).
  - etrans; [apply answered_after_enter|]. by destruct (decide _).
Qed.

Lemma perform_keeps_answered_within_players op s :
  admissible op s →
  answered_are_players s →
  answered_are_players (session_of (perform op s)).
Proof.
  unfold answered_are_players. intros Hadm Hinv.
  destruct op as [p|c|c|cb| |].
  - cbn. rewrite dom_insert_L. set_solver.
  - cbn in *. rewrite dom_delete_L. set_solver.
  - cbn in Hadm. rewrite perform_record_answer, record_answer_eq.
    destruct (bool_decide _); cbn; [exact Hinv|].
    apply union_subseteq; split; [exact Hinv|]. by apply singleton_subseteq_l.
  - done.
  - rewrite perform_trigger_start_question.
    destruct (host_command_answered trigger_start_question s) as [-> Ha];
      [by right|]. set_solver.
  - rewrite perform_trigger_next.
    destruct (host_command_answered trigger_next s) as [-> Ha];
      [by left|]. set_solver.
Qed.

Lemma answered_after_perform op s (x : string) :
  x ∈ current_question_answered (session_of (perform op s)) →
  x ∈ current_question_answered s ∨ op = OpRecordAnswer x.
Proof.
  destruct op as [p|c|c|cb| |]; try (by left).
  - rewrite perform_record_answer, record_answer_eq.
    destruct (bool_decide _); cbn; [by left|].
    rewrite elem_of_union, elem_of_singleton. intros [Hx | ->]; [by left | by right].
  - rewrite perform_trigger_start_question. intros Hx. left.
    by apply (host_command_answered trigger_start_question s); [right|].
  - rewrite perform_trigger_next. intros Hx. left.
    by apply (host_command_answered trigger_next s); [left|].
Qed.

Lemma answered_after_run ops : ∀ (s : GameSession) (x : string),
  x ∈ current_question_answered (session_of (run ops s)) →
  x ∈ current_question_answered s ∨ OpRecordAnswer x ∈ ops.
Proof.
  induction ops as [|op ops IH]; intros s x Hx; [by left|].
  rewrite session_of_run_cons in Hx.
  destruct (IH _ _ Hx) as [Hin | Hin]; [|right; by apply list_elem_of_further].
  destruct (answered_after_perform _ _ _ Hin) as [? | ->]; [by left|].
  right. apply list_elem_of_here.
Qed.

(** C8, as stated, fails: an answer recorded for an identity that is not a
    player is kept, and removing a player who has answered leaves the
    identity in the answered-set. *)
Lemma answered_set_leaves_player_map :
  ¬ answered_are_players
      (session_of (run [OpRecordAnswer "ghost"] sample_session3))
  ∧ ¬ answered_are_players
        (session_of (run [OpAddPlayer sample_player; OpTriggerStartQuestion;
                          OpRecordAnswer "conn-1"; OpRemovePlayer "conn-1"]
                         sample_session3)).
Proof.
  unfold answered_are_players.
  split; intros H; apply (bool_decide_pack _) in H; vm_compute in H; exact H.
Qed.

(** C8, amended. The session does not tie the answered-set to the player
    map: [remove_player] leaves the answered-set as it is, and
    [record_answer] gives the same result and the same answered-set whatever
    the player map holds.  The answered-set stays within the keys of the
    player map along every sequence of public operations whose callers
    record an answer only for an identity that is then a player and remove
    only a player that has not answered the current question. *)
Theorem answered_within_players_when_callers_check :
  (∀ ops s,
     answered_are_players s → disciplined ops s →
     answered_are_players (session_of (run ops s)))
  ∧ (∀ s c,
       current_question_answered (session_of (remove_player c s))
         = current_question_answered s)
  ∧ (∀ s c m,
       value_of (record_answer c (set_players m s)) = value_of (record_answer c s)
       ∧ current_question_answered (session_of (record_answer c (set_players m s)))
           = current_question_answered (session_of (record_answer c s))).
Proof.
  split; [|split].
  - induction ops as [|op ops IH]; intros s Hinv Hd; [exact Hinv|].
    destruct Hd as [Hadm Hd]. rewrite session_of_run_cons.
    apply IH; [|exact Hd]. by apply perform_keeps_answered_within_players.
  - reflexivity.
  - intros s c m. rewrite !record_answer_eq. cbn.
    by destruct (bool_decide _).
Qed.

(** A player joins, the question starts, the player answers. *)
Lemma answered_within_players_when_callers_check_witness :
  answered_are_players sample_session3
  ∧ disciplined [OpAddPlayer sample_player; OpTriggerStartQuestion;
                 OpRecordAnswer "conn-1"] sample_session3
  ∧ answered_are_players
      (session_of (run [OpAddPlayer sample_player; OpTriggerStartQuestion;
                        OpRecordAnswer "conn-1"] sample_session3)).
Proof.
  assert (H0 : answered_are_players sample_session3).
  { apply (bool_decide_unpack _). vm_compute. exact I. }
  assert (Hd : disciplined [OpAddPlayer sample_player; OpTriggerStartQuestion;
                            OpRecordAnswer "conn-1"] sample_session3).
  { cbn. split; [exact I|]. split; [exact I|]. split; [|exact I].
    apply (bool_decide_unpack _). vm_compute. exact I. }
  split; [exact H0|]. split; [exact Hd|].
  exact (proj1 answered_within_players_when_callers_check _ _ H0 Hd).
Defined.

(** * Construction of choice questions *)

(** C9. Constructing a [ChoiceQuestion] raises exactly when the options
    list is empty or [correct_index] is outside [0, len(options)).  With
    [correct_index = len(options)] it raises; with a non-empty list and
    [correct_index = 0] it succeeds; and whenever it succeeds the question
    holds the given options and index as they were passed. *)
Theorem choice_question_construction (text : string) (options : list string)
    (correct_index time_limit : Z) (qid : option string) :
  (is_Ok (ChoiceQuestion_init text options correct_index time_limit qid) = false
     ↔ options = [] ∨ ¬ (0 ≤ correct_index < len options))
  ∧ is_Ok (ChoiceQuestion_init text options (len options) time_limit qid) = false
  ∧ (options ≠ [] →
       ChoiceQuestion_init text options 0 time_limit qid
         = Ok (ChoiceQuestion (mkBase qid text time_limit) options 0))
  ∧ (∀ cq,
       ChoiceQuestion_init text options correct_index time_limit qid = Ok cq →
       cq = ChoiceQuestion (mkBase qid text time_limit) options correct_index).
Proof.
  unfold ChoiceQuestion_init, BaseQuestion_init.
  split; [|split; [|split]].
  - case_bool_decide as Ho; cbn; [by split; [left|]|].
    destruct (Z.ltb_spec correct_index 0), (Z.geb_spec correct_index (len options));
      cbn; split; try done; try (intros _; right; lia); intros [? | ?]; try done; lia.
  - case_bool_decide; [done|].
    destruct (Z.geb_spec (len options) (len options)); [|lia].
    by rewrite orb_true_r.
  - intros Ho. rewrite bool_decide_eq_false_2 by done.
    destruct options as [|o options]; [done|]. reflexivity.
  - intros cq. case_bool_decide; [done|].
    destruct (_ || _); [done|]. by intros [= <-].
Qed.

(** A question with two options. *)
Lemma choice_question_construction_witness :
  ["yes"; "no"] ≠ []
  ∧ ChoiceQuestion_init "Sure?" ["yes"; "no"] 0 30 None
      = Ok (ChoiceQuestion (mkBase None "Sure?" 30) ["yes"; "no"] 0)
  ∧ is_Ok (ChoiceQuestion_init "Sure?" ["yes"; "no"] 2 30 None) = false
  ∧ (∀ cq, ChoiceQuestion_init "Sure?" ["yes"; "no"] 1 30 None = Ok cq →
           cq = ChoiceQuestion (mkBase None "Sure?" 30) ["yes"; "no"] 1)
  ∧ ChoiceQuestion_init "Sure?" ["yes"; "no"] 1 30 None
      = Ok (ChoiceQuestion (mkBase None "Sure?" 30) ["yes"; "no"] 1).
Proof.
  destruct (choice_question_construction "Sure?" ["yes"; "no"] 2 30 None)
    as (_ & H2 & H3 & _).
  destruct (choice_question_construction "Sure?" ["yes"; "no"] 1 30 None)
    as (_ & _ & _ & H4).
  split; [discriminate|]. split; [apply H3; discriminate|].
  split; [exact H2|]. split; [exact H4|]. reflexivity.
Defined.

(** * Answers without preconditions *)

(** C10. [record_answer] looks neither at the lifecycle state nor at the
    player map: in a session with any state (or none) and any player map, a
    call for an identity that is not in the answered-set returns true and puts
    it there.  Hence after the answered-set was empty, or just did not hold
    [c], and any public operations followed that do not record an answer for
    [c], the next [record_answer c] returns true and marks [c]. *)
Theorem record_answer_needs_no_state_nor_player :
  (∀ s c g m,
     c ∉ current_question_answered s →
     let s' := set_state g (set_players m s) in
     record_answer c s'
       = (true, set_answered (current_question_answered s ∪ {[c]}) s', []))
  ∧ (∀ s ops c,
       c ∉ current_question_answered s →
       OpRecordAnswer c ∉ ops →
       let s' := session_of (run ops s) in
       value_of (record_answer c s') = true
       ∧ c ∈ current_question_answered (session_of (record_answer c s'))).
Proof.
  split.
  - intros s c g m Hc s'. rewrite record_answer_eq. subst s'. cbn.
    by rewrite bool_decide_eq_false_2.
  - intros s ops c Hc Hops s'. rewrite record_answer_eq.
    rewrite bool_decide_eq_false_2; cbn.
    + split; [done|]. apply elem_of_union_r. by apply elem_of_singleton.
    + intros Hin. by destruct (answered_after_run ops s c Hin).
Qed.

(** An identity that never joined answers after the game has finished. *)
Lemma record_answer_needs_no_state_nor_player_witness :
  ("ghost" ∉ current_question_answered sample_session3)
  ∧ (OpRecordAnswer "ghost" ∉ host_script3)
  ∧ value_of (record_answer "ghost"
                (session_of (run host_script3 sample_session3))) = true
  ∧ value_of (record_answer "ghost"
                (set_state (Some FinishedState)
                   (set_players {["conn-1" := sample_player]} sample_session3)))
      = true.
Proof.
  assert (H1 : "ghost" ∉ current_question_answered sample_session3).
  { apply not_elem_of_empty. }
  assert (H2 : OpRecordAnswer "ghost" ∉ host_script3).
  { unfold host_script3. rewrite !not_elem_of_cons.
    repeat split; try discriminate. apply not_elem_of_nil. }
  destruct record_answer_needs_no_state_nor_player as (Hany & Hrun).
  split; [exact H1|]. split; [exact H2|]. split.
  - exact (proj1 (Hrun sample_session3 host_script3 "ghost" H1 H2)).
  - rewrite (Hany sample_session3 "ghost" (Some FinishedState)
               {["conn-1" := sample_player]} H1).
    reflexivity.
Defined.

(** * The player registry *)

(** X1. [add_player] followed by [get_player] on the player's identity
    returns that player; other identities are not affected; adding a second
    player under the same identity replaces the first, as if the first had
    never been added; [get_player] changes nothing. *)
Theorem add_player_then_get_player (s : GameSession) (p : Player) :
  value_of (get_player (connection_id p) (session_of (add_player p s))) = Some p
  ∧ (∀ c, c ≠ connection_id p →
       value_of (get_player c (session_of (add_player p s)))
         = value_of (get_player c s))
  ∧ (∀ p', connection_id p' = connection_id p →
       session_of (add_player p' (session_of (add_player p s)))
         = session_of (add_player p' s))
  ∧ (∀ c, session_of (get_player c s) = s ∧ trace_of (get_player c s) = []).
Proof.
  split; [|split; [|split]].
  - cbn. apply lookup_insert_eq.
  - intros c Hc. cbn. by apply lookup_insert_ne.
  - intros p' Hid. cbn. rewrite Hid. by rewrite insert_insert_eq.
  - done.
Qed.

(** X2. [remove_player] returns the player stored under the identity, or
    nothing when there is none, and afterwards the identity is unknown while
    the other identities are as before.  Removing again returns nothing and
    changes nothing, removing an unknown identity leaves the session as it
    was, and removing a player just added under a new identity gives back the
    session from before. *)
Theorem remove_player_returns_and_forgets (s : GameSession) (c : string) :
  value_of (remove_player c s) = players s !! c
  ∧ value_of (get_player c (session_of (remove_player c s))) = None
  ∧ (∀ c', c' ≠ c →
       value_of (get_player c' (session_of (remove_player c s)))
         = value_of (get_player c' s))
  ∧ remove_player c (session_of (remove_player c s))
      = (None, session_of (remove_player c s), [])
  ∧ (players s !! c = None → remove_player c s = (None, s, []))
  ∧ (∀ p, connection_id p = c → players s !! c = None →
       remove_player c (session_of (add_player p s)) = (Some p, s, [])).
Proof.
  split; [done|]. split; [apply lookup_delete_eq|].
  split; [intros c' Hc; cbn; by apply lookup_delete_ne|].
  split; [|split].
  - unfold remove_player, bind, session_of; cbn.
    rewrite lookup_delete_eq, delete_delete_eq. reflexivity.
  - intros Hc. destruct s as [? ? ? m ? ? ? ? ?]; cbn in Hc.
    unfold remove_player, bind; cbn.
    by rewrite Hc, (delete_id _ _ Hc).
  - intros p <- Hc. destruct s as [? ? ? m ? ? ? ? ?]; cbn in Hc.
    unfold remove_player, bind; cbn.
    by rewrite lookup_insert_eq, delete_insert_eq, (delete_id _ _ Hc).
Qed.

(** A player joins under a new identity, is looked up, and leaves. *)
Lemma add_player_then_get_player_witness :
  ("conn-2" ≠ connection_id sample_player)
  ∧ value_of (get_player "conn-1" (session_of (add_player sample_player sample_session3)))
      = Some sample_player
  ∧ value_of (get_player "conn-2" (session_of (add_player sample_player sample_session3)))
      = None
  ∧ session_of (add_player (with_score sample_player 5)
                  (session_of (add_player sample_player sample_session3)))
      = session_of (add_player (with_score sample_player 5) sample_session3).
Proof.
  destruct (add_player_then_get_player sample_session3 sample_player)
    as (H1 & H2 & H3 & _).
  assert (Hne : "conn-2" ≠ connection_id sample_player) by discriminate.
  split; [exact Hne|]. split; [exact H1|]. split.
  - rewrite (H2 "conn-2" Hne). reflexivity.
  - apply H3. reflexivity.
Defined.

Lemma remove_player_returns_and_forgets_witness :
  players sample_session3 !! "conn-1" = None
  ∧ remove_player "conn-1" sample_session3 = (None, sample_session3, [])
  ∧ remove_player "conn-1" (session_of (add_player sample_player sample_session3))
      = (Some sample_player, sample_session3, [])
  ∧ value_of (get_player "conn-2"
                (session_of (remove_player "conn-1" sample_session3))) = None.
Proof.
  destruct (remove_player_returns_and_forgets sample_session3 "conn-1")
    as (_ & _ & H3 & _ & H5 & H6).
  assert (Hnone : players sample_session3 !! "conn-1" = None) by reflexivity.
  split; [exact Hnone|]. split; [exact (H5 Hnone)|]. split.
  - exact (H6 sample_player eq_refl Hnone).
  - rewrite (H3 "conn-2") by discriminate. reflexivity.
Defined.

(** * Answers of several connections *)

Lemma record_all_cons c cs s :
  record_all (c :: cs) s =
    let r1 := record_answer c s in
    let r2 := record_all cs (session_of r1) in
    (value_of r1 :: value_of r2, session_of r2, trace_of r1 ++ trace_of r2).
Proof. unfold record_all at 1; fold record_all. unfold bind. cbn. by rewrite app_nil_r. Qed.

Lemma record_answer_answered c s :
  current_question_answered (session_of (record_answer c s))
    = current_question_answered s ∪ {[c]}.
Proof.
  rewrite record_answer_eq. case_bool_decide as Hc; cbn; [|done].
  apply set_eq. intros x. rewrite elem_of_union, elem_of_singleton.
  split; [by left | by intros [? | ->]].
Qed.

Lemma record_answer_frame c s :
  session_of (record_answer c s)
    = set_answered (current_question_answered s ∪ {[c]}) s
  ∧ trace_of (record_answer c s) = [].
Proof.
  pose proof (record_answer_answered c s) as Ha.
  rewrite record_answer_eq in *. destruct (bool_decide _); cbn in *; [|done].
  split; [|done]. rewrite <- Ha. by destruct s.
Qed.

Lemma record_all_frame cs : ∀ s,
  session_of (record_all cs s)
    = set_answered (current_question_answered s ∪ list_to_set cs) s
  ∧ trace_of (record_all cs s) = [].
Proof.
  induction cs as [|c cs IH]; intros s.
  - cbn. split; [|done]. rewrite union_empty_r_L. by destruct s.
  - rewrite record_all_cons. cbn.
    destruct (record_answer_frame c s) as [Hs Ht].
    destruct (IH (session_of (record_answer c s))) as [Hs' Ht'].
    unfold session_of, trace_of in *. cbn. rewrite Hs', Ht, Ht', Hs. cbn.
    split; [|done]. by rewrite <- (assoc_L (∪)).
Qed.

(** X3. Answers of several connections.  After [record_answer] has been
    called for each identity of a list, in any order and with any
    repetitions, the answered-set is the set before joined with the
    identities of the list, and nothing else of the session has changed.  If
    the identities are pairwise distinct and none had answered, every call
    returns true and the answered-set has grown by exactly their number: no
    answer is lost and none counts twice. *)
Theorem distinct_connections_all_recorded (s : GameSession) (cs : list string) :
  session_of (record_all cs s)
    = set_answered (current_question_answered s ∪ list_to_set cs) s
  ∧ (∀ cs', cs ≡ₚ cs' →
       session_of (record_all cs' s) = session_of (record_all cs s))
  ∧ (NoDup cs → (∀ c, c ∈ cs → c ∉ current_question_answered s) →
       value_of (record_all cs s) = replicate (length cs) true
       ∧ size (current_question_answered (session_of (record_all cs s)))
           = (size (current_question_answered s) + length cs)%nat).
Proof.
  split; [apply record_all_frame|]. split.
  - intros cs' Hp.
    rewrite (proj1 (record_all_frame cs s)), (proj1 (record_all_frame cs' s)).
    f_equal. f_equal. apply set_eq. intros x.
    rewrite !elem_of_list_to_set. by rewrite Hp.
  - revert s. induction cs as [|c cs IH]; intros s Hnd Hnew.
    + cbn. split; [done|]. lia.
    + apply NoDup_cons in Hnd as [Hc Hnd].
      rewrite record_all_cons. cbn.
      assert (Hcs : c ∉ current_question_answered s).
      { apply Hnew. apply list_elem_of_here. }
      destruct (IH (session_of (record_answer c s)) Hnd) as [Hv Hsz].
      { intros x Hx. rewrite record_answer_answered.
        rewrite not_elem_of_union, not_elem_of_singleton. split.
        - apply Hnew. by apply list_elem_of_further.
        - intros ->. done. }
      unfold value_of, session_of in *. cbn. rewrite Hv, Hsz.
      rewrite (record_answer_eq c s), bool_decide_eq_false_2 by done. cbn.
      split; [done|].
      rewrite size_union by (apply disjoint_singleton_r; done).
      rewrite size_singleton. lia.
Qed.

Lemma distinct_connections_all_recorded_witness :
  let cs := ["a"; "b"; "c"] in
  NoDup cs
  ∧ (∀ c, c ∈ cs → c ∉ current_question_answered sample_session3)
  ∧ value_of (record_all cs sample_session3) = [true; true; true]
  ∧ size (current_question_answered (session_of (record_all cs sample_session3)))
      = 3%nat
  ∧ session_of (record_all ["c"; "a"; "b"] sample_session3)
      = session_of (record_all cs sample_session3).
Proof.
  intros cs.
  assert (Hnd : NoDup cs).
  { apply (bool_decide_unpack _). vm_compute. exact I. }
  assert (Hnew : ∀ c, c ∈ cs → c ∉ current_question_answered sample_session3).
  { intros c _. apply not_elem_of_empty. }
  destruct (distinct_connections_all_recorded sample_session3 cs)
    as (_ & Hperm & Hall).
  destruct (Hall Hnd Hnew) as [Hv Hsz].
  split; [exact Hnd|]. split; [exact Hnew|]. split; [exact Hv|].
  split; [exact Hsz|].
  apply Hperm. unfold cs.
  change ["c"; "a"; "b"] with (["c"] ++ ["a"; "b"]).
  change ["a"; "b"; "c"] with (["a"; "b"] ++ ["c"]).
  apply Permutation_app_comm.
Defined.

(** X4. [has_answered_current_question] is a query that changes nothing and
    tells whether [record_answer] would be refused: the two results are
    always opposite.  After [record_answer c] the query is true for [c] and
    as before for every other identity, and right after a move into the
    Question state it is false for everyone. *)
Theorem has_answered_tracks_record_answer (s : GameSession) (c : string) :
  session_of (has_answered_current_question c s) = s
  ∧ trace_of (has_answered_current_question c s) = []
  ∧ value_of (record_answer c s)
      = negb (value_of (has_answered_current_question c s))
  ∧ value_of (has_answered_current_question c (session_of (record_answer c s)))
      = true
  ∧ (∀ c', c' ≠ c →
       value_of (has_answered_current_question c' (session_of (record_answer c s)))
         = value_of (has_answered_current_question c' s))
  ∧ (∀ trigger s' tr,
       host_command trigger → trigger s = (true, s', tr) →
       state s' = Some QuestionState →
       value_of (has_answered_current_question c s') = false).
Proof.
  split; [done|]. split; [done|]. split; [|split; [|split]].
  - rewrite record_answer_eq. cbn. by destruct (bool_decide _).
  - cbn. rewrite record_answer_answered. apply bool_decide_eq_true_2.
    apply elem_of_union_r. by apply elem_of_singleton.
  - intros c' Hc. cbn. rewrite record_answer_answered.
    apply bool_decide_ext. rewrite elem_of_union, elem_of_singleton.
    split; [by intros [? | ?] | by left].
  - intros trigger s' tr Hc Hrun Hst. cbn.
    destruct (host_command_cases trigger s Hc) as [Hno | (a & b & _ & _ & Hyes)];
      [congruence|].
    rewrite Hyes in Hrun. injection Hrun as <- <-.
    rewrite state_after_enter in Hst. injection Hst as ->. cbn.
    apply bool_decide_eq_false_2, not_elem_of_empty.
Qed.

Lemma has_answered_tracks_record_answer_witness :
  let s := session_of (record_answer "conn-1" sample_session3) in
  ("conn-2" ≠ "conn-1")
  ∧ value_of (has_answered_current_question "conn-1" s) = true
  ∧ value_of (has_answered_current_question "conn-2" s) = false
  ∧ value_of (has_answered_current_question "conn-1"
                (session_of (trigger_start_question s))) = false.
Proof.
  intros s.
  destruct (has_answered_tracks_record_answer sample_session3 "conn-1")
    as (_ & _ & _ & H4 & H5 & _).
  destruct (has_answered_tracks_record_answer s "conn-1")
    as (_ & _ & _ & _ & _ & H6).
  assert (Hne : "conn-2" ≠ "conn-1") by discriminate.
  split; [exact Hne|]. split; [exact H4|]. split.
  - unfold s. rewrite (H5 "conn-2" Hne). reflexivity.
  - apply (H6 trigger_start_question _ (trace_of (trigger_start_question s)));
      [by right | reflexivity | reflexivity].
Defined.

(** * Whole games *)

Lemma run_app ops1 : ∀ ops2 s,
  session_of (run (ops1 ++ ops2) s) = session_of (run ops2 (session_of (run ops1 s)))
  ∧ trace_of (run (ops1 ++ ops2) s)
      = trace_of (run ops1 s) ++ trace_of (run ops2 (session_of (run ops1 s))).
Proof.
  induction ops1 as [|op ops1 IH]; intros ops2 s; [done|].
  change ((op :: ops1) ++ ops2) with (op :: (ops1 ++ ops2)).
  rewrite !session_of_run_cons, !trace_of_run_cons.
  destruct (IH ops2 (session_of (perform op s))) as [-> ->].
  by rewrite app_assoc.
Qed.

Lemma perform_trigger_next_full s :
  session_of (perform OpTriggerNext s) = session_of (trigger_next s)
  ∧ trace_of (perform OpTriggerNext s) = trace_of (trigger_next s).
Proof. unfold perform, bind, session_of, trace_of; cbn. by rewrite app_nil_r. Qed.

Lemma perform_trigger_start_full s :
  session_of (perform OpTriggerStartQuestion s) = session_of (trigger_start_question s)
  ∧ trace_of (perform OpTriggerStartQuestion s) = trace_of (trigger_start_question s).
Proof. unfold perform, bind, session_of, trace_of; cbn. by rewrite app_nil_r. Qed.

(** From the Question state with [k] questions after the current one, two
    steps per question lead to Finished. *)
Lemma remaining_rounds k : ∀ s,
  state s = Some QuestionState →
  current_question_index s + Z.of_nat k + 1 = question_count (quiz s) →
  let r := run (replicate (2 * S k) OpTriggerNext) s in
  state (session_of r) = Some FinishedState
  ∧ current_question_index (session_of r) = question_count (quiz s) - 1
  ∧ entered (trace_of r) = rounds k ++ [LeaderboardState; FinishedState].
Proof.
  induction k as [|k IH]; intros s Hs Hk r; subst r.
  - cbn [Nat.mul Nat.add replicate].
    rewrite !session_of_run_cons, !trace_of_run_cons.
    destruct (perform_trigger_next_full s) as [-> ->].
    rewrite trigger_next_eq, Hs. cbn [session_of trace_of fst snd].
    set (s1 := after_enter LeaderboardState s).
    destruct (perform_trigger_next_full s1) as [-> ->].
    rewrite trigger_next_eq. subst s1. cbn [after_enter state set_state].
    cbn [current_question_index quiz set_state].
    destruct (Z.ltb_spec (current_question_index s + 1) (question_count (quiz s)));
      [lia|].
    cbn [session_of trace_of fst snd run ret].
    rewrite !entered_app, !entered_protocol. cbn.
    repeat split. lia.
  - replace (2 * S (S k))%nat with (S (S (2 * S k))) by lia.
    cbn [replicate].
    rewrite !session_of_run_cons, !trace_of_run_cons.
    destruct (perform_trigger_next_full s) as [-> ->].
    rewrite trigger_next_eq, Hs. cbn [session_of trace_of fst snd].
    set (s1 := after_enter LeaderboardState s).
    destruct (perform_trigger_next_full s1) as [-> ->].
    rewrite trigger_next_eq. subst s1. cbn [after_enter state set_state].
    cbn [current_question_index quiz set_state].
    destruct (Z.ltb_spec (current_question_index s + 1) (question_count (quiz s)));
      [|lia].
    cbn [session_of trace_of fst snd].
    match goal with |- context [run _ ?x] => set (s2 := x) end.
    destruct (IH s2) as (H1 & H2 & H3); [done | subst s2; cbn; lia |].
    rewrite H1, H2, !entered_app, !entered_protocol, H3.
    repeat split.
Qed.

(** X5. A whole game.  On a quiz of n ≥ 1 questions, one
    [trigger_start_question] followed by 2n [trigger_next] calls takes a new
    session through the complete lifecycle lobby, question, (leaderboard,
    question)^(n-1), leaderboard, finished: it ends in the Finished state
    with the cursor on the last question. *)
Theorem host_script_plays_whole_game (now : Z) (pin : string) (q : Quiz)
    (sid : option string) (created : option Z) :
  questions q ≠ [] →
  let n := length (questions q) in
  let s0 := GameSession_init now pin q sid created None in
  let r := run (host_script n) s0 in
  state (session_of r) = Some FinishedState
  ∧ current_question_index (session_of r) = Z.of_nat n - 1
  ∧ observed s0 (host_script n) = lifecycle (n - 1)
  ∧ length (entered (trace_of r)) = (2 * n + 1)%nat.
Proof.
  intros Hq n s0 r.
  assert (Hn : ∃ k, n = S k).
  { subst n. destruct (questions q); [done|]. by eexists. }
  destruct Hn as [k Hk].
  assert (Hcount : question_count q = Z.of_nat (S k)).
  { unfold question_count, len. by rewrite <- Hk. }
  subst r. unfold host_script, observed. rewrite Hk.
  rewrite session_of_run_cons, trace_of_run_cons.
  destruct (perform_trigger_start_full s0) as [-> ->].
  rewrite trigger_start_question_eq.
  change (state s0) with (Some LobbyState). change (quiz s0) with q.
  cbn match.
  destruct (Z.eqb_spec (question_count q) 0) as [H0|_]; [lia|].
  cbn [session_of trace_of fst snd].
  set (s1 := after_enter QuestionState _).
  destruct (remaining_rounds k s1) as (H1 & H2 & H3);
    [done | subst s1; cbn; lia |].
  rewrite H1, H2, entered_app, entered_protocol, H3.
  replace (S k - 1)%nat with k by lia.
  split; [done|]. split; [subst s1; cbn; lia|]. split; [done|].
  rewrite !length_app. unfold rounds. rewrite length_join.
  cbn [length]. rewrite fmap_replicate, sum_list_replicate. cbn. lia.
Qed.

Lemma host_script_plays_whole_game_witness :
  questions sample_quiz3 ≠ []
  ∧ state (session_of (run (host_script 3) sample_session3)) = Some FinishedState
  ∧ current_question_index (session_of (run (host_script 3) sample_session3)) = 2
  ∧ observed sample_session3 (host_script 3) = lifecycle 2.
Proof.
  assert (Hq : questions sample_quiz3 ≠ []) by discriminate.
  destruct (host_script_plays_whole_game 0 "4712" sample_quiz3 None None Hq)
    as (H1 & H2 & H3 & _).
  split; [exact Hq|]. split; [exact H1|]. split; [exact H2|]. exact H3.
Defined.

Lemma length_rounds k : length (rounds k) = (2 * k)%nat.
Proof.
  unfold rounds. rewrite length_join, fmap_replicate, sum_list_replicate.
  cbn. lia.
Qed.

Lemma op_effect_broadcasts s s' tr :
  op_effect s s' tr →
  (tr = [] ∨ ∃ g, entered tr = [g] ∧ broadcasts tr = option_list (broadcast_callback s)).
Proof.
  intros [|m|cb|c Hc|Hs Hn|Hs|Hs Hlt|Hs Hge]; auto; right; eexists;
    by rewrite entered_protocol, broadcasts_protocol.
Qed.

Lemma broadcasts_app t1 t2 : broadcasts (t1 ++ t2) = broadcasts t1 ++ broadcasts t2.
Proof. apply omap_app. Qed.

Lemma run_broadcasts_le ops : ∀ s,
  (length (broadcasts (trace_of (run ops s)))
     ≤ length (entered (trace_of (run ops s))))%nat.
Proof.
  induction ops as [|op ops IH]; intros s; [done|].
  rewrite trace_of_run_cons, broadcasts_app, entered_app, !length_app.
  specialize (IH (session_of (perform op s))).
  destruct (op_effect_broadcasts _ _ _ (perform_effect op s)) as [-> | (g & -> & ->)].
  - cbn. lia.
  - destruct (broadcast_callback s); cbn; lia.
Qed.

(** X6. A game is bounded.  Whatever operations are applied to a new session
    on a quiz of n ≥ 1 questions, in whatever order, the state is assigned
    at most 2n+1 times, and the broadcast callback is called at most once
    per assignment, so at most 2n+1 times as well. *)
Theorem transitions_are_bounded (now : Z) (pin : string) (q : Quiz)
    (sid : option string) (created : option Z) (ops : list Op) :
  questions q ≠ [] →
  let tr := trace_of (run ops (GameSession_init now pin q sid created None)) in
  (length (entered tr) ≤ 2 * length (questions q) + 1)%nat
  ∧ (length (broadcasts tr) ≤ length (entered tr))%nat.
Proof.
  intros Hq tr. split; [|apply run_broadcasts_le].
  set (s0 := GameSession_init now pin q sid created None) in *.
  pose proof (history_inv_run q ops s0 [LobbyState]
                (history_inv_init now pin q sid created Hq)) as Hinv.
  apply history_inv_prefix, prefix_length in Hinv.
  fold tr in Hinv. unfold lifecycle_states in Hinv.
  rewrite !length_app, length_rounds in Hinv. cbn [length] in Hinv.
  assert (1 ≤ length (questions q))%nat.
  { destruct (questions q); [done|]. cbn. lia. }
  unfold question_count, len in Hinv. lia.
Qed.

Lemma transitions_are_bounded_witness :
  questions sample_quiz1 ≠ []
  ∧ (length (entered (trace_of (run (host_script3 ++ host_script3)
                                  sample_session1))) ≤ 3)%nat.
Proof.
  assert (Hq : questions sample_quiz1 ≠ []) by discriminate.
  split; [exact Hq|].
  exact (proj1 (transitions_are_bounded 0 "4711" sample_quiz1 None None
                  (host_script3 ++ host_script3) Hq)).
Defined.

Lemma filter_question_rounds k :
  length (filter (λ g, g = QuestionState) (rounds k)) = k.
Proof.
  induction k as [|k IH]; [done|].
  change (rounds (S k)) with (LeaderboardState :: QuestionState :: rounds k).
  rewrite filter_cons_False by done. rewrite filter_cons_True by done.
  cbn. by rewrite IH.
Qed.

(** X7. The cursor counts the questions started.  In a session that began
    new on a non-empty quiz, the cursor is 0 as long as no question has been
    started, and afterwards it is the number of moves into the Question
    state minus one; so [get_current_question] is the question started last,
    also while its leaderboard is shown and after the game has finished. *)
Theorem cursor_counts_questions_started (now : Z) (pin : string) (q : Quiz)
    (sid : option string) (created : option Z) (ops : list Op) :
  questions q ≠ [] →
  let r := run ops (GameSession_init now pin q sid created None) in
  current_question_index (session_of r)
    = Z.of_nat (questions_started (trace_of r) - 1)
  ∧ (questions_started (trace_of r) = 0%nat ↔ state (session_of r) = Some LobbyState)
  ∧ value_of (get_current_question (session_of r))
      = questions q !! (questions_started (trace_of r) - 1)%nat.
Proof.
  intros Hq r.
  destruct (history_inv_run q ops (GameSession_init now pin q sid created None)
              [LobbyState]) as (Hquiz & Hi & Hst).
  { by apply history_inv_init. }
  fold r in Hquiz, Hi, Hst. cbv zeta in Hst.
  set (k := Z.to_nat (current_question_index (session_of r))) in *.
  assert (Hstart : questions_started (trace_of r)
                   = match state (session_of r) with
                     | Some LobbyState => 0%nat
                     | _ => S k
                     end).
  { unfold questions_started.
    assert (Hlen : ∀ l, [LobbyState] ++ entered (trace_of r) = LobbyState :: l →
              entered (trace_of r) = l) by (by intros l [= ->]).
    destruct (state (session_of r)) as [[]|]; [| | | |done].
    - destruct Hst as [Hst _]. by rewrite (Hlen [] Hst).
    - rewrite (Hlen _ Hst). rewrite filter_cons_True by done. cbn.
      by rewrite filter_question_rounds.
    - rewrite (Hlen _ Hst). rewrite filter_cons_True by done. cbn.
      rewrite filter_app, length_app, filter_question_rounds.
      rewrite filter_cons_False by done. cbn. lia.
    - destruct Hst as [Hst _]. rewrite (Hlen _ Hst).
      rewrite filter_cons_True by done. cbn.
      rewrite filter_app, length_app, filter_question_rounds.
      rewrite !filter_cons_False by done. cbn. lia. }
  assert (Hcur : current_question_index (session_of r)
                 = Z.of_nat (questions_started (trace_of r) - 1)).
  { rewrite Hstart. destruct (state (session_of r)) as [[]|];
      [by destruct Hst as [_ ->] | subst k; lia.. | done]. }
  split; [exact Hcur|]. split.
  - rewrite Hstart. destruct (state (session_of r)) as [[]|]; split; done.
  - cbn. rewrite Hquiz. unfold get_question_at.
    change (len (questions q)) with (question_count q).
    destruct (Z.leb_spec 0 (current_question_index (session_of r))); [|lia].
    destruct (Z.ltb_spec (current_question_index (session_of r)) (question_count q));
      [|lia].
    cbn. rewrite Hcur. by rewrite Nat2Z.id.
Qed.

Lemma cursor_counts_questions_started_witness :
  questions sample_quiz3 ≠ []
  ∧ current_question_index
      (session_of (run (take 4 host_script3) sample_session3)) = 1
  ∧ value_of (get_current_question
                (session_of (run (take 4 host_script3) sample_session3)))
      = Some (sample_question 20).
Proof.
  assert (Hq : questions sample_quiz3 ≠ []) by discriminate.
  destruct (cursor_counts_questions_started 0 "4712" sample_quiz3 None None
              (take 4 host_script3) Hq) as (H1 & _ & H3).
  split; [exact Hq|]. split; [exact H1 | exact H3].
Defined.

(** X8. Finished is final.  Once a session is in the Finished state, no
    sequence of public operations changes its state or its cursor, assigns
    a state, or calls the broadcast callback. *)
Theorem finished_is_final (s : GameSession) (ops : list Op) :
  state s = Some FinishedState →
  let r := run ops s in
  state (session_of r) = Some FinishedState
  ∧ current_question_index (session_of r) = current_question_index s
  ∧ trace_of r = [].
Proof.
  revert s. induction ops as [|op ops IH]; intros s Hs r; subst r; [done|].
  rewrite session_of_run_cons, trace_of_run_cons.
  assert (Hstep : state (session_of (perform op s)) = Some FinishedState
                  ∧ current_question_index (session_of (perform op s))
                      = current_question_index s
                  ∧ trace_of (perform op s) = []).
  { destruct (perform_effect op s) as [|m|cb|c Hc|Hs' Hn|Hs'|Hs' Hlt|Hs' Hge];
      try done; congruence. }
  destruct Hstep as (H1 & H2 & H3).
  destruct (IH _ H1) as (H4 & H5 & H6).
  by rewrite H3, H4, H5, H6, H2.
Qed.

Lemma finished_is_final_witness :
  let s := session_of (run host_script1 sample_session1) in
  state s = Some FinishedState
  ∧ state (session_of (run (OpAddPlayer sample_player :: host_script3) s))
      = Some FinishedState
  ∧ trace_of (run (OpAddPlayer sample_player :: host_script3) s) = [].
Proof.
  intros s.
  assert (Hs : state s = Some FinishedState) by reflexivity.
  destruct (finished_is_final s (OpAddPlayer sample_player :: host_script3) Hs)
    as (H1 & _ & H3).
  split; [exact Hs|]. split; [exact H1 | exact H3].
Defined.

(** * What the operations leave alone *)

Lemma perform_footprint op s :
  let s' := session_of (perform op s) in
  quiz s' = quiz s ∧ pin s' = pin s ∧ session_id s' = session_id s
  ∧ created_at s' = created_at s
  ∧ current_question_index s ≤ current_question_index s'
  ∧ (is_player_op op = false → players s' = players s)
  ∧ (is_callback_op op = false → broadcast_callback s' = broadcast_callback s)
  ∧ (is_host_op op = false →
       state s' = state s ∧ current_question_index s' = current_question_index s
       ∧ trace_of (perform op s) = []).
Proof.
  assert (Hhost : ∀ trigger, host_command trigger →
            let s' := session_of (trigger s) in
            quiz s' = quiz s ∧ pin s' = pin s ∧ session_id s' = session_id s
            ∧ created_at s' = created_at s
            ∧ current_question_index s ≤ current_question_index s'
            ∧ players s' = players s
            ∧ broadcast_callback s' = broadcast_callback s).
  { intros trigger Hc.
    destruct (host_command_cases trigger s Hc) as [-> | (a & b & _ & _ & ->)];
      cbn; [repeat split; lia|].
    destruct b, (decide _); cbn; repeat split; lia. }
  destruct op as [p|c|c|cb| |]; cbn zeta.
  - cbn. repeat split; lia.
  - cbn. repeat split; try done; lia.
  - rewrite perform_record_answer.
    assert (Htr : trace_of (perform (OpRecordAnswer c) s) = []).
    { pose proof (proj2 (record_answer_frame c s)) as Ht.
      unfold perform, bind, trace_of in *; cbn. by rewrite Ht. }
    rewrite (proj1 (record_answer_frame c s)). cbn. repeat split; try done; lia.
  - cbn. repeat split; try done; lia.
  - rewrite perform_trigger_start_question.
    destruct (Hhost trigger_start_question) as (?&?&?&?&?&?&?); [by right|].
    repeat split; try done.
  - rewrite perform_trigger_next.
    destruct (Hhost trigger_next) as (?&?&?&?&?&?&?); [by left|].
    repeat split; try done.
Qed.

(** X9. What the operations leave alone.  No sequence of public operations
    changes the quiz, the PIN, the session id or the creation time, and the
    cursor never decreases.  The player map changes only by [add_player] and
    [remove_player], the registered callback only by
    [set_broadcast_callback], and the state and the cursor only by the two
    host commands, which are also the only operations that leave a trace. *)
Theorem operations_keep_their_footprint (s : GameSession) (ops : list Op) :
  let s' := session_of (run ops s) in
  quiz s' = quiz s ∧ pin s' = pin s ∧ session_id s' = session_id s
  ∧ created_at s' = created_at s
  ∧ current_question_index s ≤ current_question_index s'
  ∧ (Forall (λ op, is_player_op op = false) ops → players s' = players s)
  ∧ (Forall (λ op, is_callback_op op = false) ops →
       broadcast_callback s' = broadcast_callback s)
  ∧ (Forall (λ op, is_host_op op = false) ops →
       state s' = state s ∧ current_question_index s' = current_question_index s
       ∧ trace_of (run ops s) = []).
Proof.
  revert s. induction ops as [|op ops IH]; intros s; cbn zeta.
  - cbn. repeat split; try done; lia.
  - rewrite session_of_run_cons, trace_of_run_cons.
    destruct (perform_footprint op s) as (H1 & H2 & H3 & H4 & H5 & H6 & H7 & H8).
    destruct (IH (session_of (perform op s)))
      as (I1 & I2 & I3 & I4 & I5 & I6 & I7 & I8).
    rewrite I1, I2, I3, I4, H1, H2, H3, H4.
    do 4 (split; [reflexivity|]). split; [lia|]. split; [|split].
    + intros [Hop Hops]%Forall_cons. by rewrite I6, H6.
    + intros [Hop Hops]%Forall_cons. by rewrite I7, H7.
    + intros [Hop Hops]%Forall_cons.
      destruct (I8 Hops) as (-> & -> & ->).
      by destruct (H8 Hop) as (-> & -> & ->).
Qed.

Lemma operations_keep_their_footprint_witness :
  let ops := [OpAddPlayer sample_player; OpRecordAnswer "conn-1";
              OpRemovePlayer "conn-1"] in
  Forall (λ op, is_host_op op = false) ops
  ∧ Forall (λ op, is_callback_op op = false) ops
  ∧ state (session_of (run ops sample_session3)) = Some LobbyState
  ∧ trace_of (run ops sample_session3) = []
  ∧ broadcast_callback (session_of (run ops sample_session3)) = None
  ∧ players (session_of (run host_script3 sample_session3)) = ∅.
Proof.
  intros ops.
  assert (Hh : Forall (λ op, is_host_op op = false) ops).
  { repeat constructor. }
  assert (Hc : Forall (λ op, is_callback_op op = false) ops).
  { repeat constructor. }
  assert (Hp : Forall (λ op, is_player_op op = false) host_script3).
  { repeat constructor. }
  destruct (operations_keep_their_footprint sample_session3 ops)
    as (_ & _ & _ & _ & _ & _ & H7 & H8).
  destruct (operations_keep_their_footprint sample_session3 host_script3)
    as (_ & _ & _ & _ & _ & H6 & _).
  destruct (H8 Hh) as (Hst & _ & Htr).
  split; [exact Hh|]. split; [exact Hc|]. split; [exact Hst|].
  split; [exact Htr|]. split; [exact (H7 Hc) | exact (H6 Hp)].
Defined.



(** * Advancing the cursor repeatedly *)

Lemma advance_times_S k s :
  advance_times (S k) s =
    let r1 := advance_to_next_question s in
    let r2 := advance_times k (session_of r1) in
    (value_of r1 :: value_of r2, session_of r2, trace_of r1 ++ trace_of r2).
Proof.
  unfold advance_times at 1; fold advance_times. unfold bind. cbn.
  by rewrite app_nil_r.
Qed.

(** X11. [advance_to_next_question] saturates at the last question.  From a
    cursor below the number of questions, calling it [k] times moves the
    cursor forward by [k] but never past the last question: the first calls
    return true, one for each question that was left, and every later call
    returns false and changes nothing. *)
Theorem advance_saturates_at_last_question (k : nat) (s : GameSession) :
  current_question_index s < question_count (quiz s) →
  let left := Z.to_nat (question_count (quiz s) - 1 - current_question_index s) in
  let r := advance_times k s in
  value_of r = replicate (k `min` left) true ++ replicate (k - left) false
  ∧ session_of r
      = set_current_question_index
          (Z.min (current_question_index s + Z.of_nat k) (question_count (quiz s) - 1)) s
  ∧ trace_of r = [].
Proof.
  revert s. induction k as [|k IH]; intros s Hlt left r; subst r.
  - cbn. split; [done|]. split; [|done].
    rewrite Z.add_0_r, Z.min_l by lia. by destruct s.
  - rewrite advance_times_S. cbv zeta.
    rewrite advance_to_next_question_eq.
    destruct (Z.ltb_spec (current_question_index s + 1) (question_count (quiz s)))
      as [Hmore | Hlast].
    + cbn [value_of session_of trace_of fst snd].
      set (s1 := set_current_question_index (current_question_index s + 1) s).
      destruct (IH s1) as (Hv & Hs & Ht); [subst s1; cbn; lia|].
      cbv zeta in Hv, Hs. rewrite Hv, Hs, Ht.
      subst s1. cbn [current_question_index quiz set_current_question_index].
      split; [|split; [|done]].
      * subst left.
        replace (Z.to_nat (question_count (quiz s) - 1 - current_question_index s))
          with (S (Z.to_nat (question_count (quiz s) - 1
                             - (current_question_index s + 1)))) by lia.
        cbn [Nat.min Nat.sub replicate app]. reflexivity.
      * change (set_current_question_index ?i (set_current_question_index ?j s))
          with (set_current_question_index i s).
        f_equal. lia.
    + cbn [value_of session_of trace_of fst snd].
      destruct (IH s Hlt) as (Hv & Hs & Ht).
      cbv zeta in Hv, Hs. rewrite Hv, Hs, Ht.
      assert (Hleft : left = 0%nat) by (subst left; lia).
      rewrite Hleft.
      replace (Z.to_nat (question_count (quiz s) - 1 - current_question_index s))
        with 0%nat by lia.
      rewrite !Nat.min_0_r, !Nat.sub_0_r. cbn.
      split; [done|]. split; [|done]. f_equal. lia.
Qed.

Lemma advance_saturates_at_last_question_witness :
  current_question_index sample_session3 < question_count (quiz sample_session3)
  ∧ value_of (advance_times 4 sample_session3) = [true; true; false; false]
  ∧ current_question_index (session_of (advance_times 4 sample_session3)) = 2.
Proof.
  assert (Hlt : current_question_index sample_session3
                < question_count (quiz sample_session3)) by done.
  destruct (advance_saturates_at_last_question 4 sample_session3 Hlt)
    as (Hv & Hs & _).
  split; [exact Hlt|]. split; [exact Hv|]. by rewrite Hs.
Defined.

(** * Scores *)



(** * Quizzes *)

(** X13. A quiz has at least one question and is read by index within its
    bounds only.  [Quiz.__init__] raises exactly when the list of questions
    is empty; a quiz it returns holds the given questions in order, so its
    count is at least 1 and index 0 gives the first question.
    [get_question_at] returns the question at the index when the index is
    in [0, count) and nothing for every other index; a negative index
    does not count from the end. *)
Theorem quiz_is_read_within_bounds (now : Z) (title : string)
    (qs : list BaseQuestion) (qid : option string) (descr : string)
    (created : option Z) :
  (is_Ok (Quiz_init now title qs qid descr created) = false ↔ qs = [])
  ∧ (∀ q, Quiz_init now title qs qid descr created = Ok q →
       questions q = qs ∧ 1 ≤ question_count q
       ∧ get_question_at q 0 = head qs ∧ is_Some (get_question_at q 0)
       ∧ quiz_created_at q = default now created)
  ∧ (∀ (q : Quiz) i,
       (get_question_at q i = None ↔ i < 0 ∨ question_count q ≤ i)
       ∧ (0 ≤ i < question_count q →
            get_question_at q i = questions q !! Z.to_nat i
            ∧ is_Some (get_question_at q i))).
Proof.
  split; [|split].
  - unfold Quiz_init. case_bool_decide; cbn; split; done.
  - intros q. unfold Quiz_init. case_bool_decide as Hq; [done|].
    intros [= <-]. unfold question_count, len, get_question_at. cbn.
    destruct qs as [|q0 qs]; [done|]. cbn.
    repeat split; try done; try lia.
  - intros q i. split.
    + rewrite get_question_at_None. lia.
    + intros Hi. pose proof (proj2 (get_question_at_is_Some q i) Hi) as Hs.
      split; [|done]. unfold get_question_at. unfold question_count in Hi.
      destruct (Z.leb_spec 0 i), (Z.ltb_spec i (len (questions q)));
        cbn; try done; lia.
Qed.

Lemma quiz_is_read_within_bounds_witness :
  let qs := [sample_question 10; sample_question 20] in
  Quiz_init 0 "two" qs None EmptyString None
    = Ok (mkQuiz None "two" EmptyString qs 0)
  ∧ is_Ok (Quiz_init 0 "none" [] None EmptyString None) = false
  ∧ get_question_at sample_quiz3 (-1) = None
  ∧ get_question_at sample_quiz3 3 = None
  ∧ 0 ≤ 2 < question_count sample_quiz3
  ∧ get_question_at sample_quiz3 2 = Some (sample_question 30).
Proof.
  intros qs.
  destruct (quiz_is_read_within_bounds 0 "two" qs None EmptyString None)
    as (_ & _ & H3).
  destruct (quiz_is_read_within_bounds 0 "none" [] None EmptyString None)
    as (H1 & _).
  assert (Hi : 0 ≤ 2 < question_count sample_quiz3) by done.
  split; [reflexivity|]. split; [by apply H1|].
  split; [apply (proj2 (proj1 (H3 sample_quiz3 (-1)))); left; done|].
  split; [apply (proj2 (proj1 (H3 sample_quiz3 3))); right; done|].
  split; [exact Hi|].
  rewrite (proj1 (proj2 (H3 sample_quiz3 2) Hi)). reflexivity.
Defined.

(** * Checking answers *)

(** X14. [validate_answer] accepts one value only.  A choice question
    accepts the integer equal to its correct index and, because a [bool] is
    an [int], also [True] when that index is 1 and [False] when it is 0; a
    true/false question accepts the [bool] equal to its correct answer and
    no integer.  Strings, [None], lists and dicts are never accepted.  Among
    the integers a choice question accepts exactly one, and for a question
    that satisfies the constructor's invariant it is a valid option index. *)
Theorem validate_answer_accepts_one_value (answer : PyVal) :
  (∀ b opts idx,
     validate_answer (ChoiceQuestion b opts idx) answer = true
     ↔ answer = PyInt idx
       ∨ (answer = PyBool true ∧ idx = 1) ∨ (answer = PyBool false ∧ idx = 0))
  ∧ (∀ b c, validate_answer (TrueFalseQuestion b c) answer = true
            ↔ answer = PyBool c)
  ∧ (∀ q, match answer with
          | PyNone | PyStr _ | PyList _ | PyDict _ | PyDatetime _ | PyObjectId _ =>
              validate_answer q answer = false
          | _ => True
          end)
  ∧ (∀ b opts idx z,
       valid_question (ChoiceQuestion b opts idx) →
       validate_answer (ChoiceQuestion b opts idx) (PyInt z) = true →
       z = idx ∧ is_Some (opts !! Z.to_nat z)).
Proof.
  split; [|split; [|split]].
  - intros b opts idx.
    unfold validate_answer, ChoiceQuestion_validate_answer, eq_int.
    destruct answer as [|[]|z| | | | |];
      rewrite ?Z.eqb_eq; split;
      try discriminate;
      try (intros [? | [[? ?] | [? ?]]]; congruence);
      intros <-; auto.
  - intros b c. cbn. destruct answer as [|b'| | | | | |]; cbn;
      rewrite ?bool_decide_eq_true; split; try discriminate; congruence.
  - intros q. destruct answer; try done; by destruct q.
  - intros b opts idx z [Hne Hidx].
    unfold validate_answer, ChoiceQuestion_validate_answer, eq_int.
    rewrite Z.eqb_eq. intros ->.
    split; [done|]. apply lookup_lt_is_Some. unfold len in Hidx. lia.
Qed.

Lemma validate_answer_accepts_one_value_witness :
  valid_question sample_choice
  ∧ validate_answer sample_choice (PyInt 1) = true
  ∧ validate_answer sample_choice (PyBool true) = true
  ∧ validate_answer sample_choice (PyStr "1") = false
  ∧ validate_answer (sample_question 10) (PyInt 1) = false
  ∧ validate_answer (sample_question 10) (PyBool true) = true.
Proof.
  assert (Hv : valid_question sample_choice).
  { split; [discriminate|]. unfold len. cbn. lia. }
  destruct (validate_answer_accepts_one_value (PyInt 1)) as (H1 & _ & _ & H4).
  destruct (validate_answer_accepts_one_value (PyBool true)) as (H1' & H2' & _).
  destruct (validate_answer_accepts_one_value (PyStr "1")) as (_ & _ & H3 & _).
  assert (Ht : validate_answer sample_choice (PyInt 1) = true).
  { apply H1. by left. }
  pose proof (H4 _ _ _ 1 Hv Ht) as _.
  split; [exact Hv|]. split; [exact Ht|].
  split; [apply H1'; right; left; done|].
  split; [exact (H3 sample_choice)|].
  split; [reflexivity|]. by apply H2'.
Defined.

(** * Questions and their documents *)

Ltac dict_lookup :=
  unfold dict_get, dict_get_or, with_id;
  repeat (rewrite lookup_insert_eq
          || (rewrite lookup_insert_ne by discriminate)
          || rewrite lookup_empty);
  cbn [default from_option id].

Lemma ChoiceQuestion_new_typed text options correct_index tl qid :
  ChoiceQuestion_new (PyStr text) (PyStr <$> options) correct_index tl qid
    = match ChoiceQuestion_init text options correct_index tl qid with
      | Ok q => Ok (dyn_question q)
      | Raise e => Raise e
      end.
Proof.
  unfold ChoiceQuestion_new, ChoiceQuestion_init, len.
  rewrite length_fmap.
  destruct options as [|o options]; [done|].
  rewrite !bool_decide_eq_false_2 by done.
  by destruct (_ || _).
Qed.

Lemma ChoiceQuestion_init_valid b options correct_index :
  valid_question (ChoiceQuestion b options correct_index) →
  ChoiceQuestion_init (text b) options correct_index (time_limit_seconds b)
                      (question_id b)
    = Ok (ChoiceQuestion b options correct_index).
Proof.
  intros [Hne Hidx]. unfold ChoiceQuestion_init, BaseQuestion_init.
  rewrite bool_decide_eq_false_2 by done.
  destruct (Z.ltb_spec correct_index 0); [lia|].
  destruct (Z.geb_spec correct_index (len options)); [lia|].
  cbn. by destruct b.
Qed.

Lemma dyn_question_inj q q' : dyn_question q = dyn_question q' → q = q'.
Proof.
  assert (Hinj : Inj (=) (=) PyStr) by (by intros ?? [= ->]).
  destruct q as [[] ? ?|[] ?], q' as [[] ? ?|[] ?]; cbn; intros H;
    try discriminate; injection H; intros; subst; try done.
  f_equal. eapply (inj (fmap PyStr)). done.
Qed.

(** Reading back the document of a valid question gives the question. *)
Lemma from_dict_to_mappable_dict (B : Builtins) (q : BaseQuestion) :
  valid_question q →
  QuestionMapper_from_dict B (PyDict (to_mappable_dict q))
    = Returned (dyn_question q).
Proof.
  intros Hv.
  destruct q as [[qid txt tl] options idx | [qid txt tl] answer];
    unfold QuestionMapper_from_dict, to_mappable_dict, extract_id,
      map_choice, map_true_false, TrueFalseQuestion_new;
    cbn [question_id text time_limit_seconds].
  - pose proof (ChoiceQuestion_init_valid _ _ _ Hv) as Hinit.
    cbn [question_id text time_limit_seconds] in Hinit.
    destruct Hv as [Hne _].
    assert (Htruthy : truthy (PyList (PyStr <$> options)) = true).
    { cbn. destruct options; [done|]. by rewrite bool_decide_eq_false_2. }
    destruct qid as [i|]; dict_lookup; cbn; unfold py_or;
      dict_lookup; rewrite Htruthy; cbn;
      rewrite ChoiceQuestion_new_typed, Hinit; reflexivity.
  - destruct qid as [i|]; dict_lookup; cbn; unfold py_or; dict_lookup;
      reflexivity.
Qed.

(** X15. A question survives storage.  For every question that satisfies
    the constructor's invariant, [QuestionMapper.from_dict] applied to the
    question's [to_mappable_dict] returns, without raising, the same
    question: same class, text, time limit, id, options and correct index or
    correct answer.  The document holds an ["_id"] exactly when the question
    has an id. *)
Theorem question_survives_storage (B : Builtins) (q : BaseQuestion) :
  valid_question q →
  QuestionMapper_from_dict B (PyDict (to_mappable_dict q))
    = Returned (dyn_question q)
  ∧ (∀ q', dyn_question q' = dyn_question q → q' = q)
  ∧ (is_Some (to_mappable_dict q !! "_id")
       ↔ is_Some (match q with
                  | ChoiceQuestion b _ _ | TrueFalseQuestion b _ => question_id b
                  end)).
Proof.
  intros Hv. split; [|split; [intros q'; apply dyn_question_inj|]].
  - by apply from_dict_to_mappable_dict.
  - destruct q as [[[i|] txt tl] options idx | [[i|] txt tl] answer];
      unfold to_mappable_dict; cbn [question_id]; dict_lookup;
      split; intros [? ?]; try discriminate; by eexists.
Qed.

Lemma question_survives_storage_witness :
  valid_question sample_choice
  ∧ QuestionMapper_from_dict sample_builtins (PyDict (to_mappable_dict sample_choice))
      = Returned (dyn_question sample_choice)
  ∧ QuestionMapper_from_dict sample_builtins
      (PyDict (to_mappable_dict (sample_question 10)))
      = Returned (dyn_question (sample_question 10)).
Proof.
  assert (Hv : valid_question sample_choice).
  { split; [discriminate|]. unfold len. cbn. lia. }
  split; [exact Hv|]. split.
  - exact (proj1 (question_survives_storage sample_builtins sample_choice Hv)).
  - exact (proj1 (question_survives_storage sample_builtins (sample_question 10) I)).
Defined.

(** What a returned question tells about the document it was read from. *)
Lemma from_dict_returned (B : Builtins) (data : PyVal)
    (q : DynQuestion) :
  QuestionMapper_from_dict B data = Returned q →
  ∃ d, data = PyDict d
    ∧ dyn_text (dyn_base q) = dict_get_or d "text" (PyStr EmptyString)
    ∧ py_int B (dict_get_or d "time_limit_seconds" (PyInt 30))
        = Returned (dyn_time_limit_seconds (dyn_base q))
    ∧ dyn_question_id (dyn_base q) = extract_id B d
    ∧ match q with
      | DynChoice _ options correct_index =>
          eq_str (declared_type d) "choice" = true
          ∧ dict_get d "options" = PyList options
          ∧ options ≠ []
          ∧ 0 ≤ correct_index < len options
          ∧ py_int B (dict_get_or d "correct_index" (PyInt 0))
              = Returned correct_index
      | DynTrueFalse _ _ =>
          eq_str (declared_type d) "true_false" = true
      end.
Proof.
  destruct data as [| | | | |d| |]; try discriminate.
  unfold QuestionMapper_from_dict. fold (declared_type d).
  destruct (py_int B (dict_get_or d "time_limit_seconds" (PyInt 30)))
    as [tl|e] eqn:Htl; [|discriminate].
  cbn [and_then]. intros H. exists d. split; [done|].
  destruct (eq_str (declared_type d) "choice") eqn:Hc.
  - unfold map_choice in H.
    destruct (py_int B (dict_get_or d "correct_index" (PyInt 0)))
      as [idx|e] eqn:Hidx; [|discriminate].
    cbn [and_then] in H. unfold ChoiceQuestion_new in H.
    case_bool_decide as Hne; [discriminate|].
    destruct (Z.ltb_spec idx 0); [discriminate|].
    destruct (Z.geb_spec idx
                (len match py_or (dict_get d "options") (PyList []) with
                     | PyList l => l
                     | _ => []
                     end)); [discriminate|].
    cbn in H. injection H as <-. cbn.
    repeat split; try done; try lia.
    unfold py_or in *. destruct (truthy (dict_get d "options")) eqn:Ht;
      [|done]. by destruct (dict_get d "options").
  - destruct (eq_str (declared_type d) "true_false") eqn:Ht; [|discriminate].
    injection H as <-. cbn. done.
Qed.

(** X16. The mapper returns valid questions only.  Whenever
    [QuestionMapper.from_dict] returns, the data was a dict whose declared
    type is "choice" or "true_false"; the question carries the document's
    text (the empty string when there is none), its time limit converted by
    [int] (30 when there is none) and its id; and a choice question has the
    document's list of options, which is not empty, and a correct index
    within it. *)
Theorem question_mapper_returns_valid_questions (B : Builtins) (data : PyVal)
    (q : DynQuestion) :
  QuestionMapper_from_dict B data = Returned q →
  ∃ d, data = PyDict d
    ∧ dyn_text (dyn_base q) = dict_get_or d "text" (PyStr EmptyString)
    ∧ py_int B (dict_get_or d "time_limit_seconds" (PyInt 30))
        = Returned (dyn_time_limit_seconds (dyn_base q))
    ∧ dyn_question_id (dyn_base q) = extract_id B d
    ∧ match q with
      | DynChoice _ options correct_index =>
          eq_str (declared_type d) "choice" = true
          ∧ dict_get d "options" = PyList options
          ∧ options ≠ []
          ∧ 0 ≤ correct_index < len options
          ∧ py_int B (dict_get_or d "correct_index" (PyInt 0))
              = Returned correct_index
      | DynTrueFalse _ _ =>
          eq_str (declared_type d) "true_false" = true
      end.
Proof. apply from_dict_returned. Qed.

Lemma question_mapper_returns_valid_questions_witness :
  QuestionMapper_from_dict sample_builtins (PyDict (to_mappable_dict sample_choice))
    = Returned (dyn_question sample_choice)
  ∧ ∃ d, PyDict (to_mappable_dict sample_choice) = PyDict d
         ∧ dict_get d "options" = PyList (PyStr <$> ["red"; "green"; "blue"]).
Proof.
  assert (H : QuestionMapper_from_dict sample_builtins
                (PyDict (to_mappable_dict sample_choice))
              = Returned (dyn_question sample_choice)) by reflexivity.
  split; [exact H|].
  destruct (question_mapper_returns_valid_questions _ _ _ H)
    as (d & Hd & _ & _ & _ & _ & Hopts & _).
  exists d. split; [exact Hd | exact Hopts].
Defined.

(** X17. What the question mapper rejects.  Data that is not a dict raises
    [ValueError]; so does a document that declares no type, under
    "question_type" or, failing that, under "type", which is read in its
    place.  A choice document whose "options" is missing, empty or not a
    list never yields a question.  A time limit stored as null raises
    [TypeError], while a missing one counts as 30. *)
Theorem question_mapper_rejects_malformed_documents (B : Builtins) :
  (∀ data, is_dict data = false →
     QuestionMapper_from_dict B data
       = Raised (FromModel (ValueError "Question data must be a dict.")))
  ∧ (∀ d, d !! "question_type" = None → d !! "type" = None →
       has_returned (QuestionMapper_from_dict B (PyDict d)) = false)
  ∧ (∀ d v, d !! "question_type" = None → d !! "type" = Some v →
       QuestionMapper_from_dict B (PyDict d)
         = QuestionMapper_from_dict B (PyDict (<["question_type" := v]> d)))
  ∧ (∀ d, eq_str (declared_type d) "choice" = true →
       (∀ l, dict_get d "options" = PyList l → l = []) →
       has_returned (QuestionMapper_from_dict B (PyDict d)) = false)
  ∧ (∀ d, d !! "time_limit_seconds" = Some PyNone →
       QuestionMapper_from_dict B (PyDict d) = Raised BuiltinTypeError)
  ∧ (∀ d q, d !! "time_limit_seconds" = None →
       QuestionMapper_from_dict B (PyDict d) = Returned q →
       dyn_time_limit_seconds (dyn_base q) = 30).
Proof.
  split; [|split; [|split; [|split; [|split]]]].
  - intros data Hd. by destruct data.
  - intros d H1 H2. unfold QuestionMapper_from_dict, py_or, dict_get.
    rewrite H1, H2. cbn. by destruct (py_int B _).
  - intros d v H1 H2. unfold QuestionMapper_from_dict, extract_id, map_choice,
      map_true_false, py_or, dict_get, dict_get_or.
    rewrite lookup_insert_eq, !lookup_insert_ne by discriminate.
    rewrite H1, H2. cbn. by destruct (truthy v).
  - intros d Hc Hopts.
    destruct (QuestionMapper_from_dict B (PyDict d)) as [q|e] eqn:H; [|done].
    apply from_dict_returned in H
      as (d' & [= <-] & _ & _ & _ & Hq).
    destruct q as [b options idx|b c].
    + destruct Hq as (_ & Ho & Hne & _). by specialize (Hopts _ Ho).
    + unfold eq_str in *. destruct (declared_type d); try discriminate.
      apply bool_decide_eq_true in Hc, Hq. congruence.
  - intros d Hn. unfold QuestionMapper_from_dict, dict_get_or. by rewrite Hn.
  - intros d q Hn H.
    apply from_dict_returned in H
      as (d' & [= <-] & _ & Htl & _).
    unfold dict_get_or in Htl. rewrite Hn in Htl. cbn in Htl. congruence.
Qed.

Lemma question_mapper_rejects_malformed_documents_witness :
  let doc : gmap string PyVal :=
    <["type" := PyStr "true_false"]> (<["correct_answer" := PyBool true]> ∅) in
  is_dict (PyStr "choice") = false
  ∧ QuestionMapper_from_dict sample_builtins (PyStr "choice")
      = Raised (FromModel (ValueError "Question data must be a dict."))
  ∧ doc !! "question_type" = None
  ∧ doc !! "type" = Some (PyStr "true_false")
  ∧ QuestionMapper_from_dict sample_builtins (PyDict doc)
      = Returned (DynTrueFalse (mkDynBase None (PyStr EmptyString) 30) true)
  ∧ has_returned (QuestionMapper_from_dict sample_builtins
                    (PyDict (<["question_type" := PyStr "choice"]> ∅))) = false.
Proof.
  intros doc.
  destruct (question_mapper_rejects_malformed_documents sample_builtins)
    as (H1 & _ & H3 & H4 & _).
  assert (Ha : doc !! "question_type" = None) by reflexivity.
  assert (Hb : doc !! "type" = Some (PyStr "true_false")) by reflexivity.
  split; [reflexivity|]. split; [by apply H1|]. split; [exact Ha|].
  split; [exact Hb|]. split.
  - rewrite (H3 doc _ Ha Hb). reflexivity.
  - apply H4; [reflexivity|]. intros l Hl. discriminate Hl.
Defined.

(** X18. How a stored correct answer is read.  For a true/false document
    the correct answer is the stored [bool] itself; for a string it is false
    for "false", "False", "0" and the empty string and true for every other
    string, "true" and "no" alike; for an integer it is false for 0 and
    true otherwise; and it is false when the field is missing or null. *)
Theorem stored_correct_answer_is_coerced (d : gmap string PyVal) (text : PyVal)
    (tl : Z) (qid : option string) :
  ∃ answer,
    map_true_false d text tl qid = DynTrueFalse (mkDynBase qid text tl) answer
    ∧ (∀ b, d !! "correct_answer" = Some (PyBool b) → answer = b)
    ∧ (∀ s, d !! "correct_answer" = Some (PyStr s) →
         (answer = false ↔ s ∈ ["false"; "False"; "0"; EmptyString]))
    ∧ (∀ z, d !! "correct_answer" = Some (PyInt z) → (answer = false ↔ z = 0))
    ∧ (d !! "correct_answer" = None ∨ d !! "correct_answer" = Some PyNone →
         answer = false).
Proof.
  unfold map_true_false, TrueFalseQuestion_new, dict_get.
  eexists. split; [reflexivity|].
  split; [|split; [|split]].
  - by intros b ->.
  - intros s ->. cbn.
    rewrite !elem_of_cons, elem_of_nil.
    repeat case_bool_decide; cbn; subst; split; intros Hin;
      try done; try (by auto 7);
      try (destruct Hin as [? | [? | [? | [? | []]]]]; congruence).
  - intros z ->. cbn.
    destruct (Z.eqb_spec z 1) as [->|?]; [done|].
    destruct (Z.eqb_spec z 0) as [->|?]; cbn; [done|].
    destruct (Z.eqb_spec z 0); [done|]. cbn. done.
  - by intros [-> | ->].
Qed.

Lemma stored_correct_answer_is_coerced_witness :
  let d : gmap string PyVal := <["correct_answer" := PyStr "no"]> ∅ in
  d !! "correct_answer" = Some (PyStr "no")
  ∧ map_true_false d (PyStr "Sure?") 30 None
      = DynTrueFalse (mkDynBase None (PyStr "Sure?") 30) true.
Proof.
  intros d.
  assert (Hd : d !! "correct_answer" = Some (PyStr "no")) by reflexivity.
  split; [exact Hd|].
  destruct (stored_correct_answer_is_coerced d (PyStr "Sure?") 30 None)
    as (answer & -> & _ & Hs & _).
  f_equal. destruct answer; [done|].
  pose proof (proj1 (Hs "no" Hd) eq_refl) as Hin.
  exfalso. revert Hin. rewrite !elem_of_cons, elem_of_nil.
  intros [? | [? | [? | [? | []]]]]; discriminate.
Defined.

(** * Quizzes and their documents *)

Lemma map_questions_dicts B items : ∀ qs,
  map_questions B items = Returned qs →
  Forall2 (λ item question, QuestionMapper_from_dict B item = Returned question)
          (filter (λ v, is_dict v = true) items) qs.
Proof.
  induction items as [|v items IH]; intros qs H.
  - injection H as <-. constructor.
  - destruct v as [| | | | |d| |];
      try (rewrite filter_cons_False by done; by apply IH).
    rewrite filter_cons_True by done.
    cbn [map_questions] in H.
    destruct (QuestionMapper_from_dict B (PyDict d)) as [q|e] eqn:Hq;
      [|discriminate].
    cbn [and_then] in H.
    destruct (map_questions B items) as [qs'|e] eqn:Hqs; [|discriminate].
    injection H as <-. constructor; [done|]. by apply IH.
Qed.



(** X19. The quiz mapper returns quizzes with questions.  Whenever
    [QuizMapper.from_dict] returns, the data was a dict, the quiz has at
    least one question, its questions are exactly what the question mapper
    returns for the entries of "questions" that are dicts, in their order,
    the other entries being skipped; title and description are the
    document's (the empty string when missing), the id is the document's
    "_id" as a string, and the creation time is the stored datetime, or the
    current time when none is stored or it cannot be read. *)
Theorem quiz_mapper_returns_quizzes_with_questions (B : Builtins) (now : Z)
    (data : PyVal) (q : DynQuiz) :
  QuizMapper_from_dict B now data = Returned q →
  ∃ d items,
    data = PyDict d
    ∧ py_iter (py_or (dict_get d "questions") (PyList [])) = Returned items
    ∧ dyn_questions q ≠ []
    ∧ Forall2 (λ item question,
                 QuestionMapper_from_dict B item = Returned question)
              (filter (λ v, is_dict v = true) items) (dyn_questions q)
    ∧ dyn_title q = dict_get_or d "title" (PyStr EmptyString)
    ∧ dyn_description q = dict_get_or d "description" (PyStr EmptyString)
    ∧ dyn_quiz_id q = extract_id B d
    ∧ dyn_created_at q
        = default now (extract_datetime B (dict_get d "created_at")).
Proof.
  destruct data as [| | | | |d| |]; try discriminate.
  unfold QuizMapper_from_dict.
  destruct (py_iter _) as [items|e] eqn:Hit; [|discriminate].
  cbn [and_then].
  destruct (map_questions B items) as [qs|e] eqn:Hqs; [|discriminate].
  cbn [and_then]. case_bool_decide as Hne; [discriminate|].
  unfold Quiz_new. rewrite bool_decide_eq_false_2 by done. cbn.
  intros [= <-]. exists d, items. cbn.
  repeat split; try done. by apply map_questions_dicts.
Qed.

Lemma quiz_mapper_returns_quizzes_with_questions_witness :
  let doc : gmap string PyVal :=
    <["title" := PyStr "colours"]>
    (<["questions" := PyList [PyInt 7; PyDict (to_mappable_dict sample_choice)]]> ∅) in
  QuizMapper_from_dict sample_builtins 99 (PyDict doc)
    = Returned (mkDynQuiz None (PyStr "colours") (PyStr EmptyString)
                          [dyn_question sample_choice] 99)
  ∧ ∃ d, PyDict doc = PyDict d
         ∧ dict_get_or d "title" (PyStr EmptyString) = PyStr "colours".
Proof.
  intros doc.
  assert (H : QuizMapper_from_dict sample_builtins 99 (PyDict doc)
              = Returned (mkDynQuiz None (PyStr "colours") (PyStr EmptyString)
                                    [dyn_question sample_choice] 99))
    by reflexivity.
  split; [exact H|].
  destruct (quiz_mapper_returns_quizzes_with_questions _ _ _ _ H)
    as (d & items & Hd & _ & _ & _ & Ht & _).
  exists d. split; [exact Hd|]. by rewrite <- Ht.
Defined.






(** * The database handle *)

Lemma db_run_snoc ops op db : db_run (ops ++ [op]) db = db_step op (db_run ops db).
Proof. unfold db_run. by rewrite foldl_app. Qed.

(** X22. The database can be used exactly while it is connected.  After any
    sequence of [connect] and [close] calls on the singleton,
    [is_initialized] is true exactly when a client is held, [get_database]
    and [get_collection] return exactly then and raise [RuntimeError]
    otherwise; before the first [connect] and right after a [close] they
    raise. *)
Theorem database_usable_iff_connected (ops : list DbOp) :
  let db := db_run ops MongoDatabase_new in
  (mongo_is_initialized db = true ↔ is_Some (mongo_client db))
  ∧ mongo_initialized db = mongo_is_initialized db
  ∧ (is_Some (mongo_client db) ↔ ∃ h, mongo_get_database db = inr h)
  ∧ (is_Some (mongo_client db) ↔ ∃ h, get_collection db = inr (h, "quizzes"))
  ∧ (∃ e, mongo_get_database MongoDatabase_new = inl e)
  ∧ (∃ e, mongo_get_database (mongo_close db).1 = inl e)
  ∧ mongo_is_initialized (mongo_close db).1 = false.
Proof.
  intros db.
  assert (Hinv : mongo_initialized db = bool_decide (is_Some (mongo_client db))).
  { subst db. induction ops as [|op ops IH] using rev_ind; [done|].
    rewrite db_run_snoc. destruct op as [uri name kw|]; cbn.
    - unfold mongo_connect. destruct (mongo_client (db_run ops _)) eqn:E;
        [by rewrite IH, E|].
      cbn. by rewrite ?bool_decide_eq_true_2.
    - unfold mongo_close. destruct (mongo_client (db_run ops _)) eqn:E; cbn;
        [|by rewrite IH, E].
      by rewrite ?bool_decide_eq_false_2 by (by intros [? ?]). }
  unfold mongo_is_initialized, get_collection, mongo_get_database, mongo_close.
  rewrite Hinv. destruct (mongo_client db) as [c|] eqn:E; cbn; rewrite ?E; cbn.
  - repeat split; eauto.
  - repeat split; try done; eauto; try (by intros [? ?]).
    apply andb_false_r.
Qed.

(** X23. The first connection wins.  [connect] on a connected database
    changes nothing, whatever the new URI and name are, so right after a
    [connect] on a database without client [get_database] returns the client
    and the name of that call, and it still does after further [connect] calls.
    [close] hands the held client to be closed once; a second [close]
    changes nothing, and a [connect] after a [close] takes effect again. *)
Theorem first_connection_wins (db : MongoDatabase) (uri name : string)
    (kwargs : list (string * PyVal)) :
  (is_Some (mongo_client db) → mongo_connect uri name kwargs db = db)
  ∧ (mongo_client db = None →
       mongo_get_database (mongo_connect uri name kwargs db)
         = inr (mkClient uri kwargs, name)
       ∧ ∀ ops, Forall (λ op, op ≠ DbClose) ops →
           mongo_get_database (db_run ops (mongo_connect uri name kwargs db))
             = inr (mkClient uri kwargs, name))
  ∧ (∀ c, mongo_client db = Some c → (mongo_close db).2 = Some c)
  ∧ mongo_close (mongo_close db).1 = ((mongo_close db).1, None)
  ∧ mongo_get_database (mongo_connect uri name kwargs (mongo_close db).1)
      = inr (mkClient uri kwargs, name).
Proof.
  split; [|split; [|split; [|split]]].
  - intros [c Hc]. unfold mongo_connect. by rewrite Hc.
  - intros Hc.
    assert (H1 : mongo_get_database (mongo_connect uri name kwargs db)
                 = inr (mkClient uri kwargs, name)).
    { unfold mongo_connect. by rewrite Hc. }
    split; [exact H1|].
    intros ops. induction ops as [|op ops IH] using rev_ind; intros Hops;
      [exact H1|].
    apply Forall_app in Hops as [Hops Hop].
    apply Forall_cons in Hop as [Hop _]. specialize (IH Hops).
    rewrite db_run_snoc.
    destruct op as [uri' name' kw'|]; [|done]. cbn.
    unfold mongo_get_database in IH. unfold mongo_connect at 1.
    destruct (mongo_client (db_run ops _)) eqn:E; [|discriminate].
    unfold mongo_get_database. by rewrite E.
  - intros c Hc. unfold mongo_close. by rewrite Hc.
  - unfold mongo_close. destruct (mongo_client db) eqn:E; cbn; by rewrite ?E.
  - unfold mongo_get_database, mongo_connect, mongo_close.
    destruct (mongo_client db) eqn:E; cbn; by rewrite ?E.
Qed.

Lemma first_connection_wins_witness :
  let db := mongo_connect "mongodb://a" "quiz_a" [] MongoDatabase_new in
  is_Some (mongo_client db)
  ∧ mongo_client MongoDatabase_new = None
  ∧ Forall (λ op, op ≠ DbClose) [DbConnect "mongodb://b" "quiz_b" []]
  ∧ mongo_connect "mongodb://b" "quiz_b" [] db = db
  ∧ mongo_get_database (db_run [DbConnect "mongodb://b" "quiz_b" []] db)
      = inr (mkClient "mongodb://a" [], "quiz_a")
  ∧ (mongo_close db).2 = Some (mkClient "mongodb://a" []).
Proof.
  intros db.
  assert (Hs : is_Some (mongo_client db)) by (by eexists).
  assert (Hn : mongo_client MongoDatabase_new = None) by reflexivity.
  assert (Hops : Forall (λ op, op ≠ DbClose) [DbConnect "mongodb://b" "quiz_b" []]).
  { repeat constructor. discriminate. }
  destruct (first_connection_wins db "mongodb://b" "quiz_b" []) as (H1 & _ & H3 & _).
  destruct (first_connection_wins MongoDatabase_new "mongodb://a" "quiz_a" [])
    as (_ & H2 & _).
  split; [exact Hs|]. split; [exact Hn|]. split; [exact Hops|].
  split; [exact (H1 Hs)|]. split; [exact (proj2 (H2 Hn) _ Hops)|].
  by apply H3.
Defined.

Lemma database_usable_iff_connected_witness :
  let ops := [DbConnect "mongodb://a" "quiz_a" []; DbClose;
              DbConnect "mongodb://b" "quiz_b" []] in
  mongo_is_initialized (db_run ops MongoDatabase_new) = true
  ∧ get_collection (db_run ops MongoDatabase_new)
      = inr (mkClient "mongodb://b" [], "quiz_b", "quizzes")
  ∧ mongo_is_initialized (db_run (take 2 ops) MongoDatabase_new) = false.
Proof.
  intros ops.
  destruct (database_usable_iff_connected ops) as (H1 & _).
  destruct (database_usable_iff_connected (take 1 ops)) as (_ & _ & _ & _ & _ & _ & H7).
  split; [apply H1; by eexists|]. split; [reflexivity | exact H7].
Defined.

(** * No dead end before the end *)

(** X24. Host commands succeed exactly where they are legal, and a game can
    always go on.  [trigger_next] succeeds exactly in the Question and
    Leaderboard states, where [can_go_next] is true, and
    [trigger_start_question] exactly in the Lobby of a session whose quiz has
    a question; the two never succeed in the same state, and
    [can_show_leaderboard] is true exactly where the next state is the
    leaderboard.  In a session that began new on a non-empty quiz, whatever
    operations were applied, one of the two commands succeeds unless the
    session is Finished. *)
Theorem host_commands_succeed_where_legal (s : GameSession) :
  (value_of (trigger_next s) = true
     ↔ ∃ g, state s = Some g ∧ value_of (can_go_next g s) = true)
  ∧ (value_of (trigger_next s) = true
       ↔ state s = Some QuestionState ∨ state s = Some LeaderboardState)
  ∧ (value_of (trigger_start_question s) = true
       ↔ ∃ g, state s = Some g ∧ value_of (can_start_question g s) = true
              ∧ questions (quiz s) ≠ [])
  ∧ ¬ (value_of (trigger_next s) = true
       ∧ value_of (trigger_start_question s) = true)
  ∧ (∀ g, value_of (can_show_leaderboard g s) = true
          ↔ value_of (get_next_state g s) = Some LeaderboardState)
  ∧ (∀ s0 ops, fresh_session s0 → s = session_of (run ops s0) →
       state s ≠ Some FinishedState →
       value_of (trigger_next s) = true
       ∨ value_of (trigger_start_question s) = true).
Proof.
  assert (Hcount : question_count (quiz s) = 0 ↔ questions (quiz s) = []).
  { unfold question_count, len. destruct (questions (quiz s)); cbn; split;
      try done; lia. }
  rewrite trigger_next_eq, trigger_start_question_eq.
  split; [|split; [|split; [|split; [|split]]]].
  - destruct (state s) as [[]|]; cbn; try destruct (_ <? _); cbn;
      split; try discriminate; eauto;
      intros (g & Hg & Hgo); try discriminate; by injection Hg as <-.
  - destruct (state s) as [[]|]; cbn; try destruct (_ <? _); cbn;
      split; try discriminate; auto; by intros [? | ?].
  - destruct (state s) as [[]|]; cbn;
      try (split; [discriminate|];
           intros (g & Hg & Hgo & _); try discriminate;
           by injection Hg as <-).
    destruct (Z.eqb_spec (question_count (quiz s)) 0) as [H0|H0]; split.
    + discriminate.
    + intros (g & _ & _ & Hq). by apply Hcount in H0.
    + intros _. exists LobbyState. repeat split. by rewrite <- Hcount.
    + done.
  - destruct (state s) as [[]|]; cbn; try destruct (_ <? _); cbn;
      intros [? ?]; discriminate.
  - intros g. rewrite get_next_state_eq.
    destruct g; cbn; try destruct (_ =? _); try destruct (_ <? _);
      split; done.
  - intros s0 ops (now & pin & q & sid & created & Hq & ->) Hs Hfin.
    destruct (history_inv_run q ops (GameSession_init now pin q sid created None)
                [LobbyState]) as (Hquiz & Hi & Hst).
    { by apply history_inv_init. }
    rewrite <- Hs in Hquiz, Hi, Hst. cbv zeta in Hst.
    destruct (state s) as [[]|]; try done; cbn; auto.
    + right. destruct (Z.eqb_spec (question_count (quiz s)) 0) as [H0|H0];
        [|done]. rewrite Hquiz in H0. lia.
    + left. by destruct (_ <? _).
Qed.

Lemma host_commands_succeed_where_legal_witness :
  let s := session_of (run (take 2 host_script3) sample_session3) in
  fresh_session sample_session3
  ∧ state s = Some LeaderboardState
  ∧ state s ≠ Some FinishedState
  ∧ value_of (trigger_next s) = true
  ∧ value_of (trigger_start_question s) = false.
Proof.
  intros s.
  assert (Hf : fresh_session sample_session3).
  { exists 0, "4712", sample_quiz3, None, None. split; [discriminate|reflexivity]. }
  assert (Hst : state s = Some LeaderboardState) by reflexivity.
  assert (Hnf : state s ≠ Some FinishedState) by (rewrite Hst; discriminate).
  destruct (host_commands_succeed_where_legal s) as (_ & H2 & _ & H4 & _ & H6).
  assert (Hnext : value_of (trigger_next s) = true) by (apply H2; by right).
  split; [exact Hf|]. split; [exact Hst|]. split; [exact Hnf|].
  split; [exact Hnext|].
  destruct (H6 sample_session3 (take 2 host_script3) Hf eq_refl Hnf) as [_ | Hs].
  - destruct (value_of (trigger_start_question s)) eqn:E; [|done].
    exfalso. apply H4. by split.
  - exfalso. apply H4. by split.
Defined.
